(** * tdlib: growable vectors, byte strings and string views

    A shallow embedding of [tdlib.h]: the growth macro [td__vec_alloc], the
    append macros built on it, the [TD_String_View] functions and
    [td_read_file_to_string], followed by the properties stated about them.

    Conventions of the embedding.
    - [size_t] is the 64-bit unsigned type of the supported 64-bit targets;
      a value is a [Z] in [0, 2^64) and every arithmetic result is reduced
      with [size_t].
    - A pointer is an address counted in elements of the pointed-to type
      ([NULL] is [0]); [p + i] is plain addition, as C leaves arithmetic that
      leaves the object undefined rather than wrapping.
    - Memory is a flat store of elements, with the allocator's table of block
      sizes and the answers the allocator is going to give.
    - A macro that may call [TD_PANIC] or loop forever returns an [outcome]. *)

From Stdlib Require Import ZArith List Lia Bool Ascii String.
Import ListNotations.
Local Open Scope Z_scope.

(** ** Machine integers and pointers *)

Definition SIZE_MOD : Z := 2 ^ 64.

(** Conversion to [size_t]: reduction modulo [2^64]. *)
Definition size_t (x : Z) : Z := x mod SIZE_MOD.

Definition is_size_t (x : Z) : Prop := 0 <= x < SIZE_MOD.

(** Conversion to [i32] (two's complement wrap-around). *)
Definition i32 (x : Z) : Z := (x + 2 ^ 31) mod 2 ^ 32 - 2 ^ 31.

Definition ptr : Type := Z.

Definition NULL : ptr := 0.

(** ** Outcomes of a macro that can abort or spin *)

Inductive outcome (S A : Type) : Type :=
| Done (a : A)
| Panic (msg : string) (s : S)
| Diverge.

Arguments Done {S A} a.
Arguments Panic {S A} msg s.
Arguments Diverge {S A}.

Definition bind {S A B : Type} (m : outcome S A) (k : A -> outcome S B)
  : outcome S B :=
  match m with
  | Done a => k a
  | Panic msg s => Panic msg s
  | Diverge => Diverge
  end.

(** ** The vector structure

    [struct vec_T { T *data; size_t size, alloc; }]. *)

Record td_vec : Type := mkVec { data : ptr; size : Z; alloc : Z }.

(** [struct vec_T my_vector = {0};] *)
Definition td_vec_zero : td_vec := mkVec NULL 0 0.

Section Vector.

Context {T : Type}.

(** [sizeof( *(vector)->data )] and the configured [TD_VECINITSZ]. *)
Variable sizeof_T : Z.
Variable TD_VECINITSZ : Z.

(** The heap: element cells, the byte size of the live block based at each
    address ([0] where there is none) and the pointers that the coming calls of
    [TD_REALLOC] return ([NULL] for a failed call; an exhausted list fails). *)
Record heap : Type := mkHeap {
  cells : Z -> T;
  blk_size : ptr -> Z;
  replies : list ptr
}.

Definition block_bytes (h : heap) (p : ptr) : Z :=
  if p =? NULL then 0 else blk_size h p.

Definition upd (f : ptr -> Z) (p : ptr) (n : Z) : ptr -> Z :=
  fun q => if q =? p then n else f q.

(** [realloc(p, bytes)]: on success the new block holds the old contents up to
    the lesser of the two sizes and the old block is released; on failure the
    heap is untouched and [NULL] is returned. *)
Definition TD_REALLOC (h : heap) (p : ptr) (bytes : Z) : ptr * heap :=
  match replies h with
  | [] => (NULL, h)
  | q :: rs =>
      if q =? NULL then (NULL, mkHeap (cells h) (blk_size h) rs)
      else
        let kept := Z.min (block_bytes h p) bytes / sizeof_T in
        (q, mkHeap
              (fun a => if (q <=? a) && (a <? q + kept)
                        then cells h (p + (a - q)) else cells h a)
              (upd (upd (blk_size h) p 0) q bytes)
              rs)
  end.

(** [p[0] = x] at address [a]. *)
Definition store (h : heap) (a : ptr) (x : T) : heap :=
  mkHeap (fun b => if b =? a then x else cells h b) (blk_size h) (replies h).

(** [memcpy(dst, items, bytes)]: the source array is given by its elements,
    of which [bytes / sizeof] are copied. *)
Definition memcpy (h : heap) (dst : ptr) (items : list T) (bytes : Z) : heap :=
  let n := bytes / sizeof_T in
  mkHeap
    (fun a => if (dst <=? a) && (a <? dst + n)
              then nth (Z.to_nat (a - dst)) items (cells h a) else cells h a)
    (blk_size h) (replies h).

(** The loop [while (capacity > alloc) alloc *= 2;].  After 64 doublings the
    value is [0] and stays there, so a loop still running then runs forever:
    [None]. *)
Fixpoint td__vec_grow (fuel : nat) (a capacity : Z) : option Z :=
  if capacity >? a then
    match fuel with
    | O => None
    | Datatypes.S fuel' => td__vec_grow fuel' (size_t (a * 2)) capacity
    end
  else Some a.

Definition state : Type := td_vec * heap.

Definition td__vec_alloc (st : state) (capacity : Z) : outcome state state :=
  let (v, h) := st in
  if capacity >? alloc v then
    let a0 := if alloc v =? 0 then size_t TD_VECINITSZ else alloc v in
    match td__vec_grow 64 a0 capacity with
    | None => Diverge
    | Some a1 =>
        let (q, h') := TD_REALLOC h (data v) (size_t (a1 * sizeof_T)) in
        let v' := mkVec q (size v) a1 in
        if q =? NULL then Panic "TD_REALLOC: out of memory" (v', h')
        else Done (v', h')
    end
  else Done (v, h).

Definition td_vec_append (st : state) (item : T) : outcome state state :=
  bind (td__vec_alloc st (size_t (size (fst st) + 1))) (fun '(v, h) =>
  Done (mkVec (data v) (size_t (size v + 1)) (alloc v),
        store h (data v + size v) item)).

Definition td_vec_append_bulk (st : state) (items : list T) (count : Z)
  : outcome state state :=
  bind (td__vec_alloc st (size_t (size (fst st) + count))) (fun '(v, h) =>
  Done (mkVec (data v) (size_t (size v + count)) (alloc v),
        memcpy h (data v + size v) items (size_t (count * sizeof_T)))).

(** [count] calls of [td_vec_append], one per item, in order. *)
Fixpoint td_vec_append_each (st : state) (items : list T)
  : outcome state state :=
  match items with
  | [] => Done st
  | x :: items' =>
      bind (td_vec_append st x) (fun st' => td_vec_append_each st' items')
  end.

(** The states met along the way, the first one excluded; [None] marks a call
    that did not return. *)
Fixpoint td_vec_append_trace (st : state) (items : list T)
  : list (option state) :=
  match items with
  | [] => []
  | x :: items' =>
      match td_vec_append st x with
      | Done st' => Some st' :: td_vec_append_trace st' items'
      | _ => [None]
      end
  end.

(** [my_vector.size -= m;] *)
Definition td_vec_truncate (v : td_vec) (m : Z) : td_vec :=
  mkVec (data v) (size_t (size v - m)) (alloc v).

(** The live elements [data[0..size)]. *)
Definition td_vec_contents (h : heap) (v : td_vec) : list T :=
  map (fun i => cells h (data v + Z.of_nat i)) (seq 0 (Z.to_nat (size v))).

(** The same memory with other answers from the allocator. *)
Definition with_replies (h : heap) (rs : list ptr) : heap :=
  mkHeap (cells h) (blk_size h) rs.

(** The next call of [TD_REALLOC] fails. *)
Definition realloc_fails (h : heap) : bool :=
  match replies h with
  | [] => true
  | q :: _ => q =? NULL
  end.

(** The next [n] calls of [TD_REALLOC] succeed. *)
Definition allocator_ok (h : heap) (n : nat) : Prop :=
  (n <= List.length (replies h))%nat
  /\ Forall (fun q => q <> NULL) (replies h).

(** The invariant of the data model: [size <= alloc], and [data] is the base
    of a block with room for [alloc] elements. *)
Definition vec_wf (h : heap) (v : td_vec) : Prop :=
  is_size_t (size v) /\ is_size_t (alloc v) /\ size v <= alloc v
  /\ alloc v * sizeof_T <= block_bytes h (data v).

(** A capacity whose byte count, after the doubling that reaches it, still
    fits [size_t]. *)
Definition fits (capacity : Z) : Prop :=
  Z.max TD_VECINITSZ (2 * capacity) * sizeof_T < SIZE_MOD.

(** Zero, or [TD_VECINITSZ] times a power of two. *)
Definition capacity_shape (a : Z) : Prop :=
  a = 0 \/ exists k : nat, a = TD_VECINITSZ * 2 ^ Z.of_nat k.

End Vector.

Arguments heap T : clear implicits.
Arguments state T : clear implicits.

(** ** Strings and views *)

(** [TD_String] is a vector of [char]. *)
Definition TD_String : Type := td_vec.

Record TD_String_View : Type := mkView { sv_data : ptr; sv_size : Z }.

Definition memory : Type := Z -> ascii.

Definition td_string_view_from_string (str : TD_String) : TD_String_View :=
  mkView (data str) (size str).

Definition td_string_view_slice (v : TD_String_View) (start end_ : Z)
  : TD_String_View :=
  let start := if start >? end_ then end_ else start in
  let end_ := if end_ >? sv_size v then sv_size v else end_ in
  mkView (sv_data v + start) (size_t (end_ - start)).

Definition td_string_slice (str : TD_String) (start end_ : Z)
  : TD_String_View :=
  let start := if start >? size str then size str else start in
  let end_ := if end_ >? size str then size str else end_ in
  let end_ := if end_ <? start then start else end_ in
  mkView (data str + start) (size_t (end_ - start)).

(** The scan [while (i < v->size && v->data[i] != delim) i++;], started at
    [i] with as many steps allowed as there are bytes left to look at. *)
Fixpoint td_chop_scan (m : memory) (v : TD_String_View) (delim : ascii)
  (fuel : nat) (i : Z) : Z :=
  match fuel with
  | O => i
  | Datatypes.S fuel' =>
      if (i <? sv_size v) && negb (Ascii.eqb (m (sv_data v + i)) delim)
      then td_chop_scan m v delim fuel' (size_t (i + 1))
      else i
  end.

(** Returns [out] and the updated [*v]. *)
Definition td_string_view_chop (m : memory) (v : TD_String_View) (delim : ascii)
  : TD_String_View * TD_String_View :=
  let i := td_chop_scan m v delim (Z.to_nat (sv_size v)) 0 in
  let out := mkView (sv_data v) i in
  if i <? sv_size v
  then (out, mkView (sv_data v + (i + 1)) (size_t (sv_size v - (i + 1))))
  else (out, mkView (sv_data v + i) 0).

(** The bytes a view denotes in a memory. *)
Definition view_bytes (m : memory) (v : TD_String_View) : list ascii :=
  map (fun i => m (sv_data v + Z.of_nat i)) (seq 0 (Z.to_nat (sv_size v))).

(** A memory holding the characters of [s] from address [base] on. *)
Definition memory_of_string (base : ptr) (s : string) : memory :=
  fun a => nth (Z.to_nat (a - base)) (list_ascii_of_string s) zero.

(** ** Files *)

(** What [td_read_file_to_string] can observe of a [FILE*]: the length and
    bytes of the file, whether [fseek] and [ftell] fail, and how many bytes
    [fread] delivers before an error cuts it short. *)
Record FILE : Type := mkFile {
  f_len : Z;
  f_byte : Z -> ascii;
  f_seek_fails : bool;
  f_tell_fails : bool;
  f_read_max : Z
}.

(** [fseek(fp, 0, SEEK_END)]. *)
Definition fseek_end (fp : FILE) : Z := if f_seek_fails fp then -1 else 0.

(** [ftell(fp)] with the position at the end of the file ([long] is 64 bits
    wide on the POSIX targets). *)
Definition ftell (fp : FILE) : Z := if f_tell_fails fp then -1 else f_len fp.

(** [fread(dst, 1, n, fp)] with the position at the start of the file. *)
Definition fread (h : heap ascii) (dst : ptr) (n : Z) (fp : FILE)
  : Z * heap ascii :=
  let got := Z.max 0 (Z.min n (Z.min (f_len fp) (f_read_max fp))) in
  (got,
   mkHeap
     (fun a => if (dst <=? a) && (a <? dst + got)
               then f_byte fp (a - dst) else cells h a)
     (blk_size h) (replies h)).

Definition td_read_file_to_string (TD_VECINITSZ : Z) (st : state ascii)
  (fp : FILE) : outcome (state ascii) (bool * state ascii) :=
  if negb (fseek_end fp =? 0) then Done (false, st)
  else
    let file_size := i32 (ftell fp) in
    if file_size <? 0 then Done (false, st)
    else
      bind (td__vec_alloc 1 TD_VECINITSZ st (size_t file_size))
        (fun '(str, h) =>
           let (read, h') := fread h (data str) (size_t file_size) fp in
           if negb (read =? size_t file_size) then Done (false, (str, h'))
           else Done (true, (mkVec (data str) read (alloc str), h'))).

(** The bytes of a file. *)
Definition file_bytes (fp : FILE) : list ascii :=
  map (fun i => f_byte fp (Z.of_nat i)) (seq 0 (Z.to_nat (f_len fp))).

(** ** Definitions taken from the specification's wording *)

(** [clamp(x, lo, hi)]. *)
Definition clamp (x lo hi : Z) : Z := Z.max lo (Z.min x hi).

(** The size the slice clamp law promises:
    [clamp(end,0,size) - clamp(start,0,clamp(end,0,size))]. *)
Definition slice_size_law (v : TD_String_View) (start end_ : Z) : Z :=
  clamp end_ 0 (sv_size v) - clamp start 0 (clamp end_ 0 (sv_size v)).

(** A view [r] stays inside a view [v]. *)
Definition view_within (r v : TD_String_View) : Prop :=
  sv_data v <= sv_data r /\ sv_data r + sv_size r <= sv_data v + sv_size v.

(** Chopping [n] times: the tokens in order and the view that is left. *)
Fixpoint td_chop_times (m : memory) (v : TD_String_View) (delim : ascii)
  (n : nat) : list TD_String_View * TD_String_View :=
  match n with
  | O => ([], v)
  | Datatypes.S n' =>
      let (out, v') := td_string_view_chop m v delim in
      let (outs, v'') := td_chop_times m v' delim n' in
      (out :: outs, v'')
  end.

(** Does [delim] occur among the bytes of [v]? *)
Definition view_has (m : memory) (v : TD_String_View) (delim : ascii) : bool :=
  existsb (Ascii.eqb delim) (view_bytes m v).

(** ** The remaining functions of the library *)

(** [free(p)]: the block based at [p] is released; [free(NULL)] does
    nothing. *)
Definition TD_FREE {T : Type} (h : heap T) (p : ptr) : heap T :=
  if p =? NULL then h
  else mkHeap (cells h) (upd (blk_size h) p 0) (replies h).

Definition td_string_clear (st : state ascii) : state ascii :=
  let (str, h) := st in
  (mkVec NULL 0 0, TD_FREE h (data str)).

(** [strlen(s)], looking at no more than [limit] bytes, the size of the
    object [s] points into; [None] when there is no terminator among them,
    where C leaves the call undefined. *)
Fixpoint strlen_from (m : memory) (s : ptr) (limit : nat) (n : Z) : option Z :=
  match limit with
  | O => None
  | Datatypes.S limit' =>
      if Ascii.eqb (m (s + n)) zero then Some n
      else strlen_from m s limit' (n + 1)
  end.

Definition strlen (m : memory) (s : ptr) (limit : nat) : option Z :=
  strlen_from m s limit 0.

Definition td_string_view_from_cstr (m : memory) (cstr : ptr) (limit : nat)
  : option TD_String_View :=
  match strlen m cstr limit with
  | Some n => Some (mkView cstr n)
  | None => None
  end.

(** [td_string_append_cstr(string, cstr)], with [td_vec_append_bulk]
    expanded in place: [strlen] runs first, then [td__vec_alloc], and only
    then does [memcpy] read the [size] bytes behind the saved pointer [str],
    in the heap as the reallocation left it.  The arguments are values: an
    argument expression that names [str] or [size] would be captured by the
    macro's locals, which a function of values does not show. *)
Definition td_string_append_cstr (TD_VECINITSZ : Z) (st : state ascii)
  (cstr : ptr) (limit : nat)
  : option (outcome (state ascii) (state ascii)) :=
  let str := cstr in
  match strlen (cells (snd st)) cstr limit with
  | Some size_ =>
      Some
        (bind (td__vec_alloc 1 TD_VECINITSZ st
                 (size_t (size (fst st) + size_)))
           (fun '(v, h) =>
              Done (mkVec (data v) (size_t (size v + size_)) (alloc v),
                    memcpy 1 h (data v + size v)
                      (view_bytes (cells h) (mkView str size_))
                      (size_t (size_ * 1)))))
  | None => None
  end.

(** The bytes [p, p + n] lie outside the block of [room] elements at [q]. *)
Definition text_outside (p : ptr) (n : Z) (q : ptr) (room : Z) : Prop :=
  p + n < q \/ q + room <= p.

(** The loop of [td_string_view_equal], from index [i] on. *)
Fixpoint td_equal_scan (m : memory) (a b : TD_String_View) (fuel : nat)
  (i : Z) : bool :=
  match fuel with
  | O => true
  | Datatypes.S fuel' =>
      if i <? sv_size a then
        if negb (Ascii.eqb (m (sv_data a + i)) (m (sv_data b + i))) then false
        else td_equal_scan m a b fuel' (size_t (i + 1))
      else true
  end.

Definition td_string_view_equal (m : memory) (a b : TD_String_View) : bool :=
  if negb (sv_size a =? sv_size b) then false
  else td_equal_scan m a b (Z.to_nat (sv_size a)) 0.

(** [isspace((unsigned char)c)] in the "C" locale: space, and the controls
    from horizontal tab to carriage return. *)
Definition isspace (c : ascii) : bool :=
  let n := N_of_ascii c in
  ((n =? 32) || ((9 <=? n) && (n <=? 13)))%N.

(** The loop [while (i < v.size && isspace(v.data[i])) ++i;]. *)
Fixpoint td_trim_left_scan (m : memory) (v : TD_String_View) (fuel : nat)
  (i : Z) : Z :=
  match fuel with
  | O => i
  | Datatypes.S fuel' =>
      if (i <? sv_size v) && isspace (m (sv_data v + i))
      then td_trim_left_scan m v fuel' (size_t (i + 1))
      else i
  end.

Definition td_string_view_trim_left (m : memory) (v : TD_String_View)
  : TD_String_View :=
  let i := td_trim_left_scan m v (Z.to_nat (sv_size v)) 0 in
  mkView (sv_data v + i) (size_t (sv_size v - i)).

(** The loop [while (end > 0 && isspace(v.data[end - 1])) --end;]. *)
Fixpoint td_trim_right_scan (m : memory) (v : TD_String_View) (fuel : nat)
  (end_ : Z) : Z :=
  match fuel with
  | O => end_
  | Datatypes.S fuel' =>
      if (end_ >? 0) && isspace (m (sv_data v + (end_ - 1)))
      then td_trim_right_scan m v fuel' (size_t (end_ - 1))
      else end_
  end.

Definition td_string_view_trim_right (m : memory) (v : TD_String_View)
  : TD_String_View :=
  let end_ := td_trim_right_scan m v (Z.to_nat (sv_size v)) (sv_size v) in
  mkView (sv_data v) end_.

Definition td_string_view_trim (m : memory) (v : TD_String_View)
  : TD_String_View :=
  td_string_view_trim_right m (td_string_view_trim_left m v).

(** What a reallocation is worth: twice the capacity it leaves, counting the
    unallocated vector as [TD_VECINITSZ]. *)
Definition capacity_weight (TD_VECINITSZ a : Z) : Z :=
  if a =? 0 then TD_VECINITSZ else 2 * a.

(** * Properties *)

(** ** Arithmetic of [size_t] *)

Lemma size_t_id (x : Z) : is_size_t x -> size_t x = x.
Proof. unfold is_size_t, size_t. intros H. apply Z.mod_small. exact H. Qed.

Lemma size_t_range (x : Z) : is_size_t (size_t x).
Proof. unfold is_size_t, size_t, SIZE_MOD. apply Z.mod_pos_bound. lia. Qed.

Lemma SIZE_MOD_eq : SIZE_MOD = 18446744073709551616.
Proof. reflexivity. Qed.

(** Closes a range condition on concrete numbers. *)
Ltac in_range := unfold is_size_t, SIZE_MOD; cbn; lia.

(** ** Slicing *)

(** Where the smaller of the two indices lies inside the view, the slice has
    the promised size and stays inside the view. *)
Lemma td_string_view_slice_in_range (v : TD_String_View) (start end_ : Z) :
  is_size_t (sv_size v) -> is_size_t start -> is_size_t end_ ->
  Z.min start end_ <= sv_size v ->
  sv_size (td_string_view_slice v start end_) = slice_size_law v start end_
  /\ view_within (td_string_view_slice v start end_) v.
Proof.
  unfold td_string_view_slice, slice_size_law, clamp, view_within, is_size_t.
  intros Hv Hs He Hmin. cbn [sv_size sv_data].
  destruct (Z.gtb_spec start end_), (Z.gtb_spec end_ (sv_size v));
    rewrite size_t_id by (unfold is_size_t; lia); lia.
Qed.

(** C1: the slice of a view of 3 bytes from 5 to 10.  Neither index is
    clamped before the subtraction [3 - 5], so the size wraps around to
    [2^64 - 2] where the clamp law promises [0], and the result reaches far
    beyond the end of the view. *)
Theorem td_string_view_slice_underflow :
  let v := mkView 4096 3 in
  let r := td_string_view_slice v 5 10 in
  r = mkView 4101 (2 ^ 64 - 2)
  /\ slice_size_law v 5 10 = 0
  /\ sv_size r <> slice_size_law v 5 10
  /\ ~ view_within r v.
Proof.
  cbv zeta. repeat split; try reflexivity.
  - vm_compute. discriminate.
  - unfold view_within. vm_compute. intros [_ H]. apply H. reflexivity.
Qed.

(** The sibling [td_string_slice] clamps both indices against the size first:
    at the same indices it returns the empty view at the end of the string. *)
Lemma td_string_slice_clamps :
  td_string_slice (mkVec 4096 3 1024) 5 10 = mkView 4099 0.
Proof. reflexivity. Qed.

(** [td_string_slice] never underflows and never leaves the string. *)
Lemma td_string_slice_within (str : TD_String) (start end_ : Z) :
  is_size_t (size str) -> is_size_t start -> is_size_t end_ ->
  sv_size (td_string_slice str start end_)
  = clamp end_ (clamp start 0 (size str)) (size str) - clamp start 0 (size str)
  /\ view_within (td_string_slice str start end_)
       (td_string_view_from_string str).
Proof.
  unfold td_string_slice, td_string_view_from_string, clamp, view_within,
    is_size_t.
  intros Hv Hs He. cbn [sv_size sv_data].
  destruct (Z.gtb_spec start (size str)), (Z.gtb_spec end_ (size str));
    match goal with |- context [?a <? ?b] => destruct (Z.ltb_spec a b) end;
    rewrite size_t_id by (unfold is_size_t; lia); lia.
Qed.

(** C4, as stated, fails: with the indices out of order the two functions
    return the empty view at different offsets. *)
Lemma td_string_slice_offset_differs :
  let s := mkVec 4096 10 1024 in
  let a := td_string_slice s 5 2 in
  let b := td_string_view_slice (td_string_view_from_string s) 5 2 in
  ~ (sv_data a = sv_data b /\ sv_size a = sv_size b).
Proof. cbv zeta. vm_compute. intros [H _]. discriminate H. Qed.

(** C4, amended: with the indices in order and [start] inside the string,
    or with [end] equal to the size and [start] beyond it, the two functions
    return the same view; with the indices out of order and [end] below the
    size both return an empty view, at different offsets: [td_string_slice]
    at [min(start, size)] and [td_string_view_slice] at [end]. *)
Theorem td_string_slice_vs_view_slice (s : TD_String) (start end_ : Z) :
  is_size_t (size s) -> is_size_t start -> is_size_t end_ ->
  let a := td_string_slice s start end_ in
  let b := td_string_view_slice (td_string_view_from_string s) start end_ in
  (start <= end_ -> start <= size s -> a = b)
  /\ (end_ < start -> end_ = size s -> a = b)
  /\ (end_ < start -> end_ < size s ->
      sv_size a = 0 /\ sv_size b = 0
      /\ sv_data a = data s + Z.min start (size s)
      /\ sv_data b = data s + end_
      /\ sv_data a <> sv_data b).
Proof.
  unfold td_string_slice, td_string_view_slice, td_string_view_from_string,
    is_size_t.
  intros Hv Hs He. cbn [sv_size sv_data]. cbv zeta. split; [|split].
  - intros Hse Hsz.
    destruct (Z.gtb_spec start (size s)); [lia|].
    destruct (Z.gtb_spec start end_); [lia|].
    destruct (Z.gtb_spec end_ (size s));
      match goal with |- context [?a <? ?b] => destruct (Z.ltb_spec a b) end;
      try lia; reflexivity.
  - intros Hse Hsz.
    destruct (Z.gtb_spec start (size s)); [|lia].
    destruct (Z.gtb_spec start end_); [|lia].
    destruct (Z.gtb_spec end_ (size s)); [lia|].
    match goal with |- context [?a <? ?b] => destruct (Z.ltb_spec a b) end;
      (f_equal; [lia | f_equal; lia]).
  - intros Hse Hsz.
    destruct (Z.gtb_spec start (size s)), (Z.gtb_spec start end_),
      (Z.gtb_spec end_ (size s));
      try lia;
      match goal with |- context [?a <? ?b] => destruct (Z.ltb_spec a b) end;
      cbn [sv_size sv_data]; repeat split; try lia;
      match goal with
      | |- size_t (?x - ?y) = 0 => replace (x - y) with 0 by lia; reflexivity
      end.
Qed.

Lemma td_string_slice_vs_view_slice_witness :
  let s := mkVec 4096 10 1024 in
  (td_string_slice s 2 5
   = td_string_view_slice (td_string_view_from_string s) 2 5)
  /\ (td_string_slice s 15 10
      = td_string_view_slice (td_string_view_from_string s) 15 10)
  /\ sv_data (td_string_slice s 5 2)
     <> sv_data (td_string_view_slice (td_string_view_from_string s) 5 2).
Proof.
  cbv zeta. split; [|split].
  - refine (proj1 (td_string_slice_vs_view_slice
                     (mkVec 4096 10 1024) 2 5 _ _ _) _ _);
      in_range.
  - refine (proj1 (proj2 (td_string_slice_vs_view_slice
                            (mkVec 4096 10 1024) 15 10 _ _ _)) _ _);
      in_range.
  - refine (proj2 (proj2 (proj2 (proj2 (proj2 (proj2
              (td_string_slice_vs_view_slice
                 (mkVec 4096 10 1024) 5 2 _ _ _)) _ _)))));
      in_range.
Defined.

(** ** Bytes of a view *)

Lemma map_seq_from {A : Type} (f : nat -> A) (s n : nat) :
  map f (seq s n) = map (fun i => f (s + i)%nat) (seq 0 n).
Proof.
  revert s. induction n as [|n IH]; intros s; [reflexivity|].
  cbn [seq map]. rewrite Nat.add_0_r. f_equal.
  rewrite <- (seq_shift n 0), map_map, IH. apply map_ext. intros i.
  f_equal. lia.
Qed.

Lemma view_bytes_length (m : memory) (v : TD_String_View) :
  List.length (view_bytes m v) = Z.to_nat (sv_size v).
Proof. unfold view_bytes. rewrite length_map, length_seq. reflexivity. Qed.

Lemma view_bytes_split (m : memory) (p : ptr) (a b : Z) :
  0 <= a -> 0 <= b ->
  view_bytes m (mkView p (a + b))
  = view_bytes m (mkView p a) ++ view_bytes m (mkView (p + a) b).
Proof.
  intros Ha Hb. unfold view_bytes. cbn [sv_data sv_size].
  rewrite Z2Nat.inj_add by lia. rewrite seq_app, map_app. f_equal.
  cbn [Nat.add]. rewrite map_seq_from. apply map_ext. intros i.
  f_equal. lia.
Qed.

Lemma view_bytes_one (m : memory) (p : ptr) :
  view_bytes m (mkView p 1) = [m p].
Proof.
  unfold view_bytes. cbn [sv_data sv_size].
  change (Z.to_nat 1) with 1%nat. cbn [seq map Z.of_nat].
  rewrite Z.add_0_r. reflexivity.
Qed.

Lemma view_bytes_In (m : memory) (v : TD_String_View) (c : ascii) :
  In c (view_bytes m v) <->
  exists j, 0 <= j < sv_size v /\ m (sv_data v + j) = c.
Proof.
  unfold view_bytes. rewrite in_map_iff. split.
  - intros [i [E Hi]]. apply in_seq in Hi. exists (Z.of_nat i). split; [lia|].
    exact E.
  - intros [j [Hj E]]. exists (Z.to_nat j). split.
    + rewrite Z2Nat.id by lia. exact E.
    + apply in_seq. lia.
Qed.

(** The first occurrence of a byte splits a list in one way only. *)
Lemma first_occurrence_unique {A : Type} (d : A) (pre pre' post post' : list A) :
  pre ++ d :: post = pre' ++ d :: post' ->
  ~ In d pre -> ~ In d pre' -> pre = pre' /\ post = post'.
Proof.
  revert pre'. induction pre as [|x pre IH]; intros [|y pre'] E Hn Hn'.
  - cbn in E. injection E as E. split; [reflexivity | exact E].
  - cbn in E. injection E as E1 E2. subst y. exfalso. apply Hn'. left.
    reflexivity.
  - cbn in E. injection E as E1 E2. subst x. exfalso. apply Hn. left.
    reflexivity.
  - cbn in E. injection E as E1 E2. subst y.
    destruct (IH pre' E2) as [Ep Eq].
    + intros H. apply Hn. right. exact H.
    + intros H. apply Hn'. right. exact H.
    + subst. split; reflexivity.
Qed.

(** ** Chopping *)

(** The scan stops at the first delimiter or at the end of the view: the
    steps allowed are enough for the loop to reach its exit. *)
Lemma td_chop_scan_spec (m : memory) (v : TD_String_View) (d : ascii)
  (fuel : nat) (i : Z) :
  is_size_t (sv_size v) -> 0 <= i <= sv_size v ->
  sv_size v <= i + Z.of_nat fuel ->
  let r := td_chop_scan m v d fuel i in
  i <= r <= sv_size v
  /\ (forall j, i <= j < r -> m (sv_data v + j) <> d)
  /\ (r < sv_size v -> m (sv_data v + r) = d).
Proof.
  intros Hv. revert i. induction fuel as [|fuel IH]; intros i Hi Hf; cbv zeta.
  - cbn [td_chop_scan]. split; [lia|]. split; intros; lia.
  - cbn [td_chop_scan]. destruct (Z.ltb_spec i (sv_size v)) as [Hlt|Hge].
    + destruct (Ascii.eqb_spec (m (sv_data v + i)) d) as [E|NE]; cbn [andb negb].
      * split; [lia|]. split; [intros; lia | intros _; exact E].
      * assert (Ei : size_t (i + 1) = i + 1)
          by (apply size_t_id; unfold is_size_t in *; lia).
        rewrite Ei. destruct (IH (i + 1)) as [H1 [H2 H3]]; try lia.
        split; [lia|]. split; [|exact H3].
        intros j Hj. destruct (Z.eq_dec j i) as [->|Hne]; [exact NE|].
        apply H2. lia.
    + cbn [andb]. split; [lia|]. split; intros; lia.
Qed.

(** The index at which [td_string_view_chop] cuts. *)
Lemma td_string_view_chop_index (m : memory) (v : TD_String_View) (d : ascii) :
  is_size_t (sv_size v) ->
  exists i,
    0 <= i <= sv_size v
    /\ (forall j, 0 <= j < i -> m (sv_data v + j) <> d)
    /\ ((i < sv_size v /\ m (sv_data v + i) = d
         /\ td_string_view_chop m v d
            = (mkView (sv_data v) i,
               mkView (sv_data v + (i + 1)) (sv_size v - (i + 1))))
        \/ (i = sv_size v
            /\ td_string_view_chop m v d
               = (mkView (sv_data v) i, mkView (sv_data v + i) 0))).
Proof.
  intros Hv.
  destruct (td_chop_scan_spec m v d (Z.to_nat (sv_size v)) 0 Hv)
    as [H1 [H2 H3]]; [unfold is_size_t in Hv; lia.. |].
  exists (td_chop_scan m v d (Z.to_nat (sv_size v)) 0).
  split; [exact H1|]. split; [exact H2|].
  unfold td_string_view_chop.
  destruct (Z.ltb_spec (td_chop_scan m v d (Z.to_nat (sv_size v)) 0)
              (sv_size v)) as [Hlt|Hge].
  - left. split; [exact Hlt|]. split; [exact (H3 Hlt)|].
    rewrite size_t_id by (unfold is_size_t in *; lia). reflexivity.
  - right. split; [lia | reflexivity].
Qed.

Lemma view_prefix_free (m : memory) (p : ptr) (i : Z) (d : ascii) :
  (forall j, 0 <= j < i -> m (p + j) <> d) ->
  ~ In d (view_bytes m (mkView p i)).
Proof.
  intros H Hin. apply view_bytes_In in Hin. destruct Hin as [j [Hj E]].
  cbn [sv_data sv_size] in *. exact (H j Hj E).
Qed.

(** The bytes of a view, cut at a delimiter found at index [i]. *)
Lemma view_bytes_cut (m : memory) (v : TD_String_View) (i : Z) :
  0 <= i < sv_size v ->
  view_bytes m v
  = view_bytes m (mkView (sv_data v) i)
    ++ m (sv_data v + i)
    :: view_bytes m (mkView (sv_data v + (i + 1)) (sv_size v - (i + 1))).
Proof.
  intros Hi. destruct v as [p n]. cbn [sv_data sv_size] in *.
  replace n with (i + (1 + (n - (i + 1)))) at 1 by lia.
  rewrite view_bytes_split by lia. f_equal.
  rewrite view_bytes_split by lia. rewrite view_bytes_one.
  cbn [app]. do 2 f_equal. f_equal. lia.
Qed.

Lemma td_string_view_chop_empty (m : memory) (p : ptr) (d : ascii) :
  td_string_view_chop m (mkView p 0) d = (mkView p 0, mkView (p + 0) 0).
Proof. reflexivity. Qed.

Lemma td_chop_times_empty (m : memory) (d : ascii) (n : nat) (p : ptr) :
  td_chop_times m (mkView p 0) d n = (repeat (mkView p 0) n, mkView p 0).
Proof.
  induction n as [|n IH]; [reflexivity|].
  cbn [td_chop_times]. rewrite td_string_view_chop_empty, Z.add_0_r, IH.
  reflexivity.
Qed.

(** C6: [td_string_view_chop] returns the prefix of the view before the first
    delimiter and advances the view past that delimiter; without a delimiter
    it returns the whole view and leaves an empty view at its end.  Over
    ["a,b,c"] the chops by [","] give ["a"], ["b"], ["c"], then the view is
    empty and every further chop gives the empty view. *)
Theorem td_string_view_chop_tokens :
  (forall (m : memory) (v : TD_String_View) (d : ascii),
      is_size_t (sv_size v) ->
      let out := fst (td_string_view_chop m v d) in
      let v' := snd (td_string_view_chop m v d) in
      sv_data out = sv_data v
      /\ (forall pre post,
             view_bytes m v = pre ++ d :: post -> ~ In d pre ->
             view_bytes m out = pre
             /\ view_bytes m v' = post
             /\ sv_data v' = sv_data v + Z.of_nat (List.length pre) + 1
             /\ sv_size v' = Z.of_nat (List.length post))
      /\ (~ In d (view_bytes m v) ->
          out = v /\ v' = mkView (sv_data v + sv_size v) 0))
  /\ (forall n : nat,
         let m := memory_of_string 4096 "a,b,c" in
         let r := td_chop_times m (mkView 4096 5) "," (3 + n) in
         map (view_bytes m) (fst r)
         = [list_ascii_of_string "a"; list_ascii_of_string "b";
            list_ascii_of_string "c"] ++ repeat [] n
         /\ sv_size (snd r) = 0).
Proof.
  split.
  - intros m v d Hv. cbv zeta.
    destruct (td_string_view_chop_index m v d Hv)
      as [i [Hi [Hfree [[Hlt [Hd E]]|[Heq E]]]]]; rewrite E; cbn [fst snd].
    + split; [reflexivity|]. split.
      * intros pre post Hsplit Hpre.
        pose proof (view_bytes_cut m v i (conj (proj1 Hi) Hlt)) as Hcut.
        rewrite Hd in Hcut. rewrite Hcut in Hsplit.
        destruct (first_occurrence_unique d _ _ _ _ Hsplit
                    (view_prefix_free m _ _ d Hfree) Hpre) as [E1 E2].
        split; [exact E1|]. split; [exact E2|]. cbn [sv_data sv_size].
        rewrite <- E1, <- E2, !view_bytes_length. cbn [sv_size]. lia.
      * intros Hnot. exfalso. apply Hnot. apply view_bytes_In.
        exists i. split; [lia | exact Hd].
    + split; [reflexivity|]. split.
      * intros pre post Hsplit Hpre. exfalso.
        assert (Hin : In d (view_bytes m v))
          by (rewrite Hsplit; apply in_or_app; right; left; reflexivity).
        apply view_bytes_In in Hin. destruct Hin as [j [Hj Ej]].
        apply (Hfree j); [lia | exact Ej].
      * intros _. subst i. destruct v; split; reflexivity.
  - intros n. cbv zeta.
    change (3 + n)%nat with (Datatypes.S (Datatypes.S (Datatypes.S n))).
    set (m := memory_of_string 4096 "a,b,c").
    assert (E1 : td_string_view_chop m (mkView 4096 5) ","
                 = (mkView 4096 1, mkView 4098 3)) by (vm_compute; reflexivity).
    assert (E2 : td_string_view_chop m (mkView 4098 3) ","
                 = (mkView 4098 1, mkView 4100 1)) by (vm_compute; reflexivity).
    assert (E3 : td_string_view_chop m (mkView 4100 1) ","
                 = (mkView 4100 1, mkView 4101 0)) by (vm_compute; reflexivity).
    cbn [td_chop_times]. rewrite E1, E2, E3, td_chop_times_empty.
    cbn [fst snd map sv_size]. split; [|reflexivity].
    rewrite map_repeat. reflexivity.
Qed.

Lemma td_string_view_chop_tokens_witness :
  let m := memory_of_string 4096 "k=v" in
  let v := mkView 4096 3 in
  view_bytes m (fst (td_string_view_chop m v "=")) = list_ascii_of_string "k"
  /\ view_bytes m (snd (td_string_view_chop m v "=")) = list_ascii_of_string "v".
Proof.
  cbv zeta.
  assert (Hv : is_size_t (sv_size (mkView 4096 3)))
    by in_range.
  destruct (proj1 td_string_view_chop_tokens
              (memory_of_string 4096 "k=v") (mkView 4096 3) "="%char Hv)
    as [_ [H _]].
  destruct (H (list_ascii_of_string "k") (list_ascii_of_string "v"))
    as [H1 [H2 _]].
  - reflexivity.
  - cbn. intros [H0|[]]. discriminate H0.
  - split; [exact H1 | exact H2].
Defined.

(** C10: the prefix returned by [td_string_view_chop] holds no delimiter, the
    updated view is a suffix of the original one, the two sizes add up to the
    original size less the delimiter consumed, and a non-empty view gets
    strictly smaller. *)
Theorem td_string_view_chop_progress (m : memory) (v : TD_String_View)
  (d : ascii) :
  is_size_t (sv_size v) ->
  let out := fst (td_string_view_chop m v d) in
  let v' := snd (td_string_view_chop m v d) in
  ~ In d (view_bytes m out)
  /\ (exists skipped, view_bytes m v = skipped ++ view_bytes m v')
  /\ sv_data v' + sv_size v' = sv_data v + sv_size v
  /\ sv_size out + sv_size v' + (if view_has m v d then 1 else 0) = sv_size v
  /\ (0 < sv_size v -> sv_size v' < sv_size v).
Proof.
  intros Hv. cbv zeta.
  destruct (td_string_view_chop_index m v d Hv)
    as [i [Hi [Hfree [[Hlt [Hd E]]|[Heq E]]]]]; rewrite E; cbn [fst snd].
  - split; [apply view_prefix_free; exact Hfree|].
    split.
    + exists (view_bytes m (mkView (sv_data v) i) ++ [d]).
      rewrite <- app_assoc. cbn [app]. rewrite <- Hd.
      apply view_bytes_cut. lia.
    + cbn [sv_data sv_size].
      assert (Hhas : view_has m v d = true).
      { unfold view_has. apply existsb_exists. exists d. split.
        - apply view_bytes_In. exists i. split; [lia | exact Hd].
        - apply Ascii.eqb_refl. }
      rewrite Hhas. lia.
  - split; [apply view_prefix_free; exact Hfree|].
    split.
    + exists (view_bytes m v). subst i. unfold view_bytes at 3.
      cbn [sv_size Z.to_nat seq map]. rewrite app_nil_r. reflexivity.
    + cbn [sv_data sv_size].
      assert (Hhas : view_has m v d = false).
      { unfold view_has. destruct (existsb _ _) eqn:Ex; [|reflexivity].
        apply existsb_exists in Ex. destruct Ex as [c [Hin Ec]].
        apply Ascii.eqb_eq in Ec. subst c.
        apply view_bytes_In in Hin. destruct Hin as [j [Hj Ej]].
        exfalso. apply (Hfree j); [lia | exact Ej]. }
      rewrite Hhas. lia.
Qed.

Lemma td_string_view_chop_progress_witness :
  let m := memory_of_string 4096 "a,b,c" in
  let v := mkView 4096 5 in
  sv_size (snd (td_string_view_chop m v ",")) < sv_size v.
Proof.
  cbv zeta.
  assert (Hv : is_size_t (sv_size (mkView 4096 5)))
    by in_range.
  destruct (td_string_view_chop_progress
              (memory_of_string 4096 "a,b,c") (mkView 4096 5) ","%char Hv)
    as [_ [_ [_ [_ H]]]].
  apply H. cbn. lia.
Defined.

(** ** The doubling loop *)

Lemma size_t_pow0 (a : Z) :
  is_size_t a -> size_t (a * 2 ^ Z.of_nat 0) = a.
Proof.
  intros Ha. change (Z.of_nat 0) with 0. rewrite Z.pow_0_r, Z.mul_1_r.
  apply size_t_id. exact Ha.
Qed.

Lemma size_t_double_pow (a : Z) (j : nat) :
  size_t (size_t (a * 2) * 2 ^ Z.of_nat j)
  = size_t (a * 2 ^ Z.of_nat (Datatypes.S j)).
Proof.
  unfold size_t. rewrite Z.mul_mod_idemp_l by (unfold SIZE_MOD; lia).
  f_equal. rewrite Nat2Z.inj_succ, Z.pow_succ_r by lia. ring.
Qed.

(** What the fuelled loop returns is what the [while] loop computes: the
    first of [a], [2a], [4a], ... (in [size_t]) to reach [capacity]. *)
Lemma td__vec_grow_some (fuel : nat) (a capacity a' : Z) :
  is_size_t a ->
  td__vec_grow fuel a capacity = Some a' ->
  exists k : nat,
    (k <= fuel)%nat /\ a' = size_t (a * 2 ^ Z.of_nat k) /\ capacity <= a'
    /\ forall j : nat, (j < k)%nat -> size_t (a * 2 ^ Z.of_nat j) < capacity.
Proof.
  revert a. induction fuel as [|fuel IH]; intros a Ha E;
    cbn [td__vec_grow] in E;
    destruct (Z.gtb_spec capacity a) as [Hgt|Hle]; try discriminate.
  - injection E as <-. exists 0%nat. split; [lia|].
    split; [symmetry; apply size_t_pow0; exact Ha|]. split; [exact Hle|].
    intros j Hj. lia.
  - destruct (IH (size_t (a * 2)) (size_t_range _) E) as [k [Hk [Ea [Hc Hj]]]].
    exists (Datatypes.S k). split; [lia|].
    rewrite size_t_double_pow in Ea. split; [exact Ea|].
    split; [exact Hc|]. intros [|j] Hlt.
    + rewrite size_t_pow0 by exact Ha. lia.
    + rewrite <- size_t_double_pow. apply Hj. lia.
  - injection E as <-. exists 0%nat. split; [lia|].
    split; [symmetry; apply size_t_pow0; exact Ha|]. split; [exact Hle|].
    intros j Hj. lia.
Qed.

(** When 64 doublings do not reach [capacity], no number of doublings does:
    the [while] loop spins on [alloc = 0]. *)
Lemma td__vec_grow_none (a capacity : Z) :
  is_size_t a ->
  td__vec_grow 64 a capacity = None ->
  forall j : nat, size_t (a * 2 ^ Z.of_nat j) < capacity.
Proof.
  intros Ha E.
  assert (G : forall (fuel : nat) (b : Z),
             is_size_t b -> td__vec_grow fuel b capacity = None ->
             forall j : nat, (j <= fuel)%nat ->
                             size_t (b * 2 ^ Z.of_nat j) < capacity).
  { induction fuel as [|fuel IH]; intros b Hb Eb j Hj; cbn [td__vec_grow] in Eb;
      destruct (Z.gtb_spec capacity b) as [Hgt|Hle]; try discriminate.
    - assert (j = 0%nat) by lia. subst j.
      rewrite Z.pow_0_r, Z.mul_1_r, size_t_id by exact Hb. lia.
    - destruct j as [|j].
      + rewrite Z.pow_0_r, Z.mul_1_r, size_t_id by exact Hb. lia.
      + specialize (IH _ (size_t_range _) Eb j ltac:(lia)).
        unfold size_t in IH |- *.
        rewrite Z.mul_mod_idemp_l in IH by (unfold SIZE_MOD; lia).
        replace (b * 2 ^ Z.of_nat (Datatypes.S j))
          with (b * 2 * 2 ^ Z.of_nat j)
          by (rewrite Nat2Z.inj_succ, Z.pow_succ_r by lia; ring).
        exact IH. }
  intros j. destruct (Nat.le_gt_cases j 64) as [Hle|Hgt].
  - apply (G 64%nat a Ha E j Hle).
  - pose proof (G 64%nat a Ha E 64%nat (Nat.le_refl _)) as H64.
    assert (Z64 : forall n : nat, (64 <= n)%nat ->
                                size_t (a * 2 ^ Z.of_nat n) = 0).
    { intros n Hn. unfold size_t, SIZE_MOD.
      replace (Z.of_nat n) with (64 + (Z.of_nat n - 64)) by lia.
      rewrite Z.pow_add_r by lia.
      replace (a * (2 ^ 64 * 2 ^ (Z.of_nat n - 64)))
        with (a * 2 ^ (Z.of_nat n - 64) * 2 ^ 64) by ring.
      apply Z.mod_mul. lia. }
    rewrite Z64 in H64 by lia. rewrite Z64 by lia. exact H64.
Qed.

(** Below [2^63] no doubling overflows, and the loop returns the least
    [a * 2^k] that reaches [capacity]. *)
Lemma td__vec_grow_total (fuel : nat) (a capacity : Z) :
  0 < a < SIZE_MOD -> capacity <= 2 ^ 63 ->
  capacity <= a * 2 ^ Z.of_nat fuel ->
  exists (k : nat) (a' : Z),
    td__vec_grow fuel a capacity = Some a'
    /\ a' = a * 2 ^ Z.of_nat k /\ capacity <= a' /\ a' < SIZE_MOD
    /\ (capacity <= a -> a' = a)
    /\ (a < capacity -> a' < 2 * capacity).
Proof.
  revert a. induction fuel as [|fuel IH]; intros a Ha Hc Hf;
    cbn [td__vec_grow]; destruct (Z.gtb_spec capacity a) as [Hgt|Hle].
  - rewrite Z.pow_0_r in Hf. lia.
  - exists 0%nat, a. rewrite Z.pow_0_r. repeat split; try lia.
  - assert (E2 : size_t (a * 2) = a * 2)
      by (apply size_t_id; unfold is_size_t, SIZE_MOD in *; lia).
    rewrite E2. destruct (IH (a * 2)) as [k [a' [E [Ea [H1 [H2 [H3 H4]]]]]]].
    + unfold SIZE_MOD in *. lia.
    + exact Hc.
    + rewrite Nat2Z.inj_succ, Z.pow_succ_r in Hf by lia. lia.
    + exists (Datatypes.S k), a'. split; [exact E|].
      split; [rewrite Nat2Z.inj_succ, Z.pow_succ_r by lia; lia|].
      split; [exact H1|]. split; [exact H2|]. split; [lia|].
      intros _. destruct (Z.le_gt_cases capacity (a * 2)); [|lia].
      rewrite H3 by lia. lia.
  - exists 0%nat, a. rewrite Z.pow_0_r. repeat split; try lia.
Qed.

(** ** Vectors *)

Section VectorFacts.

Context {T : Type}.
Variable sizeof_T : Z.
Variable TD_VECINITSZ : Z.
Hypothesis sizeof_pos : 0 < sizeof_T.
Hypothesis init_range : 0 < TD_VECINITSZ < SIZE_MOD.

Implicit Types (h : heap T) (v : td_vec) (x : T) (items : list T).

(** *** The allocator *)

Lemma allocator_ok_less h (n : nat) :
  allocator_ok h (Datatypes.S n) -> allocator_ok h n.
Proof. unfold allocator_ok. intros [Hn Hall]. split; [lia | exact Hall]. Qed.

Lemma TD_REALLOC_ok h (p : ptr) (bytes : Z) (n : nat) :
  allocator_ok h (Datatypes.S n) ->
  exists (q : ptr) h',
    TD_REALLOC sizeof_T h p bytes = (q, h')
    /\ q <> NULL
    /\ replies h = q :: replies h'
    /\ allocator_ok h' n
    /\ blk_size h' q = bytes
    /\ forall i, 0 <= i < Z.min (block_bytes h p) bytes / sizeof_T ->
                 cells h' (q + i) = cells h (p + i).
Proof.
  unfold allocator_ok, TD_REALLOC. intros [Hn Hall].
  destruct (replies h) as [|q rs] eqn:Er; [cbn in Hn; lia|].
  inversion Hall as [|? ? Hq Hrs]; subst.
  destruct (Z.eqb_spec q NULL) as [E|_]; [contradiction|].
  eexists. eexists. split; [reflexivity|]. cbn [replies blk_size cells].
  split; [exact Hq|]. split; [reflexivity|].
  split; [split; [cbn in Hn; lia | exact Hrs]|].
  split; [unfold upd; rewrite Z.eqb_refl; reflexivity|].
  intros i Hi.
  destruct (Z.leb_spec q (q + i)); [|lia].
  destruct (Z.ltb_spec (q + i)
              (q + Z.min (block_bytes h p) bytes / sizeof_T)); [|lia].
  cbn [andb]. f_equal. lia.
Qed.

Lemma TD_REALLOC_fails h (p : ptr) (bytes : Z) :
  realloc_fails h = true ->
  exists h',
    TD_REALLOC sizeof_T h p bytes = (NULL, h')
    /\ cells h' = cells h /\ blk_size h' = blk_size h.
Proof.
  unfold realloc_fails, TD_REALLOC. destruct (replies h) as [|q rs].
  - intros _. exists h. repeat split.
  - intros E. rewrite E. eexists. split; [reflexivity|]. split; reflexivity.
Qed.

(** *** The growth macro *)

Lemma td__vec_alloc_keeps h v (capacity : Z) :
  capacity <= alloc v ->
  td__vec_alloc sizeof_T TD_VECINITSZ (v, h) capacity = Done (v, h).
Proof.
  intros H. unfold td__vec_alloc.
  destruct (Z.gtb_spec capacity (alloc v)); [lia | reflexivity].
Qed.

(** The capacity the macro settles on when it has to grow. *)
Lemma td__vec_alloc_capacity v (capacity : Z) :
  is_size_t (alloc v) -> alloc v < capacity <= 2 ^ 63 ->
  exists (k : nat) (a1 : Z),
    td__vec_grow 64
      (if alloc v =? 0 then size_t TD_VECINITSZ else alloc v) capacity
    = Some a1
    /\ a1 = (if alloc v =? 0 then TD_VECINITSZ else alloc v) * 2 ^ Z.of_nat k
    /\ capacity <= a1 < SIZE_MOD
    /\ alloc v < a1
    /\ a1 <= Z.max TD_VECINITSZ (2 * capacity - 1).
Proof.
  intros Ha Hc. rewrite (size_t_id TD_VECINITSZ) by (unfold is_size_t; lia).
  set (a0 := if alloc v =? 0 then TD_VECINITSZ else alloc v).
  assert (Ha0 : 0 < a0 < SIZE_MOD).
  { unfold a0, is_size_t in *. destruct (Z.eqb_spec (alloc v) 0); lia. }
  assert (Hle : alloc v <= a0).
  { unfold a0. destruct (Z.eqb_spec (alloc v) 0); lia. }
  destruct (td__vec_grow_total 64 a0 capacity Ha0 (proj2 Hc))
    as [k [a1 [E [Ea [H1 [H2 [H3 H4]]]]]]].
  - change (2 ^ Z.of_nat 64) with (2 * 2 ^ 63). lia.
  - exists k, a1. split; [exact E|]. split; [exact Ea|]. split; [lia|].
    split; [lia|].
    destruct (Z.le_gt_cases capacity a0) as [Hin|Hout].
    + rewrite (H3 Hin). unfold a0.
      destruct (Z.eqb_spec (alloc v) 0); lia.
    + specialize (H4 Hout). lia.
Qed.

Lemma td__vec_alloc_grows h v (capacity : Z) (n : nat) :
  is_size_t (alloc v) -> alloc v < capacity <= 2 ^ 63 ->
  allocator_ok h (Datatypes.S n) ->
  exists (k : nat) (q : ptr) h',
    let a1 := (if alloc v =? 0 then TD_VECINITSZ else alloc v)
              * 2 ^ Z.of_nat k in
    td__vec_alloc sizeof_T TD_VECINITSZ (v, h) capacity
    = Done (mkVec q (size v) a1, h')
    /\ capacity <= a1 < SIZE_MOD
    /\ a1 <= Z.max TD_VECINITSZ (2 * capacity - 1)
    /\ TD_REALLOC sizeof_T h (data v) (size_t (a1 * sizeof_T)) = (q, h')
    /\ q <> NULL
    /\ allocator_ok h' n.
Proof.
  intros Ha Hc Hok.
  destruct (td__vec_alloc_capacity v capacity Ha Hc)
    as [k [a1 [E [Ea [H1 [_ H2]]]]]].
  destruct (TD_REALLOC_ok h (data v) (size_t (a1 * sizeof_T)) n Hok)
    as [q [h' [Er [Hq [_ [Hok' _]]]]]].
  exists k, q, h'. cbv zeta. rewrite <- Ea.
  split; [|split; [exact H1|]; split; [exact H2|]; split; [exact Er|];
            split; [exact Hq | exact Hok']].
  unfold td__vec_alloc.
  destruct (Z.gtb_spec capacity (alloc v)); [|lia].
  rewrite E, Er. destruct (Z.eqb_spec q NULL); [contradiction | reflexivity].
Qed.

(** [Diverge] is reported only for a loop that never ends: no doubling of
    the starting capacity, however often repeated, reaches [capacity]. *)
Lemma td__vec_alloc_diverges h v (capacity : Z) :
  is_size_t (alloc v) ->
  td__vec_alloc sizeof_T TD_VECINITSZ (v, h) capacity = Diverge ->
  forall j : nat,
    size_t ((if alloc v =? 0 then size_t TD_VECINITSZ else alloc v)
            * 2 ^ Z.of_nat j) < capacity.
Proof.
  intros Ha E. unfold td__vec_alloc in E.
  destruct (capacity >? alloc v); [|discriminate].
  destruct (td__vec_grow 64 _ capacity) as [a1|] eqn:Eg.
  - destruct (TD_REALLOC sizeof_T h (data v) (size_t (a1 * sizeof_T)))
      as [q h']. destruct (q =? NULL); discriminate.
  - apply td__vec_grow_none; [|exact Eg].
    destruct (alloc v =? 0); [apply size_t_range | exact Ha].
Qed.

(** *** Contents *)

Lemma td_vec_contents_length h v :
  List.length (td_vec_contents h v) = Z.to_nat (size v).
Proof. unfold td_vec_contents. rewrite length_map, length_seq. reflexivity. Qed.

Lemma td_vec_contents_ext h h' v v' :
  size v' = size v ->
  (forall i, 0 <= i < size v -> cells h' (data v' + i) = cells h (data v + i)) ->
  td_vec_contents h' v' = td_vec_contents h v.
Proof.
  intros Es Hc. unfold td_vec_contents. rewrite Es. apply map_ext_in.
  intros i Hi. apply in_seq in Hi. apply Hc. lia.
Qed.

Lemma td_vec_contents_app h (d : ptr) (s n a a' a'' : Z) :
  0 <= s -> 0 <= n ->
  td_vec_contents h (mkVec d (s + n) a)
  = td_vec_contents h (mkVec d s a')
    ++ td_vec_contents h (mkVec (d + s) n a'').
Proof.
  intros Hs Hn. unfold td_vec_contents. cbn [data size].
  rewrite Z2Nat.inj_add by lia. rewrite seq_app, map_app. f_equal.
  cbn [Nat.add]. rewrite map_seq_from. apply map_ext. intros i.
  f_equal. lia.
Qed.

Lemma nth_seq_all (items : list T) (f : nat -> T) :
  map (fun i => nth i items (f i)) (seq 0 (List.length items)) = items.
Proof.
  revert f. induction items as [|x items IH]; intros f; [reflexivity|].
  cbn [List.length seq map nth]. f_equal.
  rewrite map_seq_from. cbn [Nat.add nth].
  apply (IH (fun i => f (Datatypes.S i))).
Qed.

Lemma td_vec_contents_store h (d : ptr) (s a a' : Z) x :
  0 <= s ->
  td_vec_contents (store h (d + s) x) (mkVec d (s + 1) a)
  = td_vec_contents h (mkVec d s a') ++ [x].
Proof.
  intros Hs. rewrite (td_vec_contents_app _ d s 1 a a' 0) by lia. f_equal.
  - apply td_vec_contents_ext; [reflexivity|]. cbn [data size store cells].
    intros i Hi. destruct (Z.eqb_spec (d + i) (d + s)); [lia | reflexivity].
  - unfold td_vec_contents. cbn [data size].
    change (Z.to_nat 1) with 1%nat. cbn [seq map store cells Z.of_nat].
    rewrite Z.add_0_r, Z.eqb_refl. reflexivity.
Qed.

Lemma td_vec_contents_memcpy h (d : ptr) (s a a' : Z) items :
  0 <= s ->
  td_vec_contents
    (memcpy sizeof_T h (d + s) items (Z.of_nat (List.length items) * sizeof_T))
    (mkVec d (s + Z.of_nat (List.length items)) a)
  = td_vec_contents h (mkVec d s a') ++ items.
Proof.
  intros Hs. unfold memcpy. rewrite Z.div_mul by lia.
  rewrite (td_vec_contents_app _ d s _ a a' 0) by lia. f_equal.
  - apply td_vec_contents_ext; [reflexivity|]. cbn [data size cells].
    intros i Hi. destruct (Z.leb_spec (d + s) (d + i)); [lia | reflexivity].
  - unfold td_vec_contents. cbn [data size cells].
    rewrite Nat2Z.id.
    rewrite <- (nth_seq_all items
                  (fun i => cells h (d + s + Z.of_nat i))) at 2.
    apply map_ext_in. intros i Hi. apply in_seq in Hi.
    destruct (Z.leb_spec (d + s) (d + s + Z.of_nat i)); [|lia].
    destruct (Z.ltb_spec (d + s + Z.of_nat i)
                (d + s + Z.of_nat (List.length items))); [|lia].
    cbn [andb]. replace (d + s + Z.of_nat i - (d + s)) with (Z.of_nat i) by lia.
    rewrite Nat2Z.id. reflexivity.
Qed.

(** *** Failure of the reallocation *)

(** C2, amended: when the reallocation inside [td__vec_alloc] fails,
    [TD_PANIC] is reached with [size] and the heap (so the old block and its
    elements) untouched, but with [alloc] already raised to the grown
    capacity and [data] overwritten with [NULL]. *)
Theorem td__vec_alloc_failure h v (capacity : Z) :
  is_size_t (alloc v) -> alloc v < capacity <= 2 ^ 63 ->
  realloc_fails h = true ->
  exists (a1 : Z) h',
    td__vec_alloc sizeof_T TD_VECINITSZ (v, h) capacity
    = Panic "TD_REALLOC: out of memory" (mkVec NULL (size v) a1, h')
    /\ capacity <= a1 /\ alloc v < a1
    /\ cells h' = cells h /\ blk_size h' = blk_size h.
Proof.
  intros Ha Hc Hf.
  destruct (td__vec_alloc_capacity v capacity Ha Hc)
    as [k [a1 [E [_ [H1 [H2 _]]]]]].
  destruct (TD_REALLOC_fails h (data v) (size_t (a1 * sizeof_T)) Hf)
    as [h' [Er [Ec Eb]]].
  exists a1, h'. split.
  - unfold td__vec_alloc.
    destruct (Z.gtb_spec capacity (alloc v)); [|lia].
    rewrite E, Er. reflexivity.
  - split; [lia|]. split; [exact H2|]. split; [exact Ec | exact Eb].
Qed.

(** *** Appending: the fields *)

Lemma td_vec_append_fields h v x (n : nat) :
  is_size_t (size v) -> is_size_t (alloc v) -> size v <= alloc v ->
  size v < 2 ^ 63 ->
  capacity_shape TD_VECINITSZ (alloc v) ->
  allocator_ok h (Datatypes.S n) ->
  exists v' h',
    td_vec_append sizeof_T TD_VECINITSZ (v, h) x = Done (v', h')
    /\ size v' = size v + 1
    /\ is_size_t (alloc v') /\ size v' <= alloc v'
    /\ capacity_shape TD_VECINITSZ (alloc v') /\ alloc v' <> 0
    /\ allocator_ok h' n.
Proof.
  intros Hs Ha Hsa Hb Hshape Hok.
  assert (E1 : size_t (size v + 1) = size v + 1)
    by (apply size_t_id; unfold is_size_t, SIZE_MOD in *; lia).
  unfold td_vec_append. cbn [fst]. rewrite E1.
  destruct (Z.le_gt_cases (size v + 1) (alloc v)) as [Hfit|Hgrow].
  - rewrite td__vec_alloc_keeps by exact Hfit. cbn [bind]. rewrite E1.
    eexists. eexists. split; [reflexivity|]. cbn [size alloc].
    split; [reflexivity|]. split; [exact Ha|]. split; [exact Hfit|].
    split; [exact Hshape|]. split; [unfold is_size_t in Hs; lia|].
    apply allocator_ok_less. exact Hok.
  - destruct (td__vec_alloc_grows h v (size v + 1) n Ha ltac:(lia) Hok)
      as [k [q [h' [E [H1 [_ [_ [_ Hok']]]]]]]].
    cbv zeta in E. rewrite E. cbn [bind size alloc data]. rewrite E1.
    eexists. eexists. split; [reflexivity|]. cbn [size alloc].
    split; [reflexivity|]. split; [unfold is_size_t in *; lia|].
    split; [lia|]. split.
    + destruct (Z.eqb_spec (alloc v) 0) as [Hz|Hnz].
      * right. exists k. reflexivity.
      * destruct Hshape as [Hz|[j Ej]]; [contradiction|].
        right. exists (j + k)%nat.
        rewrite Ej, Nat2Z.inj_add, Z.pow_add_r by lia. ring.
    + split; [unfold is_size_t in Hs; lia|]. cbn [store replies].
      exact Hok'.
Qed.

Lemma td_vec_append_each_fields items :
  forall h v,
    is_size_t (size v) -> is_size_t (alloc v) -> size v <= alloc v ->
    size v + Z.of_nat (List.length items) <= 2 ^ 63 ->
    capacity_shape TD_VECINITSZ (alloc v) ->
    allocator_ok h (List.length items) ->
    exists v' h',
      td_vec_append_each sizeof_T TD_VECINITSZ (v, h) items = Done (v', h')
      /\ size v' = size v + Z.of_nat (List.length items)
      /\ size v' <= alloc v'
      /\ capacity_shape TD_VECINITSZ (alloc v')
      /\ (items <> [] -> alloc v' <> 0)
      /\ List.length (td_vec_append_trace sizeof_T TD_VECINITSZ (v, h) items)
         = List.length items
      /\ Forall (fun o => exists v1 h1, o = Some (v1, h1)
                                       /\ size v1 <= alloc v1)
           (td_vec_append_trace sizeof_T TD_VECINITSZ (v, h) items).
Proof.
  induction items as [|x items IH]; intros h v Hs Ha Hsa Hb Hshape Hok.
  - exists v, h. cbn [td_vec_append_each td_vec_append_trace List.length].
    split; [reflexivity|]. split; [cbn; lia|]. split; [exact Hsa|].
    split; [exact Hshape|]. split; [intros C; contradiction|].
    split; [reflexivity | constructor].
  - cbn [List.length] in Hb, Hok. rewrite Nat2Z.inj_succ in Hb.
    destruct (td_vec_append_fields h v x (List.length items))
      as [v1 [h1 [E1 [Es1 [Ha1 [Hsa1 [Hshape1 [Hnz1 Hok1]]]]]]]];
      try assumption; [lia|].
    destruct (IH h1 v1) as [v' [h' [E [Es [Hsa' [Hshape' [_ [Hlen Hall]]]]]]]];
      try assumption.
    + rewrite Es1. unfold is_size_t, SIZE_MOD in *. lia.
    + lia.
    + exists v', h'. cbn [td_vec_append_each td_vec_append_trace].
      rewrite E1. cbn [bind List.length]. split; [exact E|].
      split; [rewrite Nat2Z.inj_succ; lia|]. split; [exact Hsa'|].
      split; [exact Hshape'|]. split.
      * intros _. destruct items as [|y items].
        -- cbn [td_vec_append_each] in E. injection E as <- _. exact Hnz1.
        -- destruct Hshape' as [Hz|[k Ek]].
           ++ exfalso. cbn [List.length] in Es. unfold is_size_t in *. lia.
           ++ rewrite Ek. apply Z.neq_mul_0. split; [lia|].
              apply Z.pow_nonzero; lia.
      * split; [rewrite Hlen; reflexivity|].
        constructor; [|exact Hall]. exists v1, h1. split; [reflexivity|].
        exact Hsa1.
Qed.

(** C5: [N] appends to the all-zero vector, for [N] up to the [2^63] elements
    that doubling a [size_t] can reach, all return; [alloc] ends as [0] when
    [N = 0] and otherwise as [TD_VECINITSZ] times a power of two, it is at
    least [N], and [size <= alloc] holds after every single append. *)
Theorem td_vec_append_capacity items h :
  let N := Z.of_nat (List.length items) in
  N <= 2 ^ 63 ->
  allocator_ok h (List.length items) ->
  exists v' h',
    td_vec_append_each sizeof_T TD_VECINITSZ (td_vec_zero, h) items
    = Done (v', h')
    /\ size v' = N
    /\ (N = 0 -> alloc v' = 0)
    /\ (0 < N -> exists k : nat, alloc v' = TD_VECINITSZ * 2 ^ Z.of_nat k)
    /\ N <= alloc v'
    /\ List.length (td_vec_append_trace sizeof_T TD_VECINITSZ
                      (td_vec_zero, h) items) = List.length items
    /\ Forall (fun o => exists v1 h1, o = Some (v1, h1)
                                     /\ size v1 <= alloc v1)
         (td_vec_append_trace sizeof_T TD_VECINITSZ (td_vec_zero, h) items).
Proof.
  intros N Hb Hok.
  destruct (td_vec_append_each_fields items h td_vec_zero)
    as [v' [h' [E [Es [Hsa [Hshape [Hnz [Hlen Hall]]]]]]]];
    try assumption; try (cbn; in_range).
  - left. reflexivity.
  - cbn [td_vec_zero size] in Es. exists v', h'. split; [exact E|].
    split; [exact Es|]. split.
    + intros HN. destruct items as [|x items]; [|cbn in N; lia].
      cbn [td_vec_append_each] in E. injection E as <- _. reflexivity.
    + split.
      * intros HN. destruct Hshape as [Hz|Hk]; [|exact Hk].
        exfalso. apply Hnz; [|exact Hz]. intros ->. cbn in N, HN. lia.
      * split; [fold N in Es; lia|]. split; [exact Hlen | exact Hall].
Qed.

(** *** Appending: the elements *)

Lemma fits_le (c c' : Z) :
  c <= c' -> fits sizeof_T TD_VECINITSZ c' -> fits sizeof_T TD_VECINITSZ c.
Proof.
  unfold fits. intros Hle H.
  apply Z.le_lt_trans with (2 := H).
  apply Z.mul_le_mono_nonneg_r; lia.
Qed.

Lemma fits_bytes (c a : Z) :
  fits sizeof_T TD_VECINITSZ c -> 0 <= a ->
  a <= Z.max TD_VECINITSZ (2 * c - 1) ->
  is_size_t (a * sizeof_T) /\ 2 * c <= 2 ^ 64 - 1.
Proof.
  unfold fits, is_size_t, SIZE_MOD. intros H Ha Hle.
  assert (a * sizeof_T <= Z.max TD_VECINITSZ (2 * c) * sizeof_T)
    by (apply Z.mul_le_mono_nonneg_r; lia).
  assert (Z.max TD_VECINITSZ (2 * c) * 1
          <= Z.max TD_VECINITSZ (2 * c) * sizeof_T)
    by (apply Z.mul_le_mono_nonneg_l; lia).
  split; [split; [apply Z.mul_nonneg_nonneg; lia | lia] | lia].
Qed.

Lemma vec_wf_with_replies h v (rs : list ptr) :
  vec_wf sizeof_T h v -> vec_wf sizeof_T (with_replies h rs) v.
Proof. intros H. exact H. Qed.

Lemma td__vec_alloc_wf h v (capacity : Z) (n : nat) :
  vec_wf sizeof_T h v -> size v <= capacity ->
  fits sizeof_T TD_VECINITSZ capacity ->
  allocator_ok h (Datatypes.S n) ->
  exists v' h',
    td__vec_alloc sizeof_T TD_VECINITSZ (v, h) capacity = Done (v', h')
    /\ vec_wf sizeof_T h' v'
    /\ size v' = size v /\ capacity <= alloc v'
    /\ td_vec_contents h' v' = td_vec_contents h v
    /\ allocator_ok h' n.
Proof.
  intros [Hs [Ha [Hsa Hblk]]] Hsc Hfit Hok.
  destruct (Z.le_gt_cases capacity (alloc v)) as [Hkeep|Hgrow].
  - exists v, h. rewrite td__vec_alloc_keeps by exact Hkeep.
    split; [reflexivity|].
    split; [exact (conj Hs (conj Ha (conj Hsa Hblk)))|].
    split; [reflexivity|]. split; [exact Hkeep|]. split; [reflexivity|].
    apply allocator_ok_less. exact Hok.
  - assert (Hc63 : capacity <= 2 ^ 63).
    { destruct (fits_bytes capacity 0 Hfit) as [_ B]; lia. }
    destruct (td__vec_alloc_grows h v capacity n Ha ltac:(lia) Hok)
      as [k [q [h' [E [H1 [H2 [Er [Hq Hok']]]]]]]].
    cbv zeta in E, H1, H2, Er.
    set (a1 := (if alloc v =? 0 then TD_VECINITSZ else alloc v)
               * 2 ^ Z.of_nat k) in *.
    destruct (fits_bytes capacity a1 Hfit) as [Hbytes _];
      [unfold is_size_t in *; lia | exact H2 |].
    rewrite (size_t_id _ Hbytes) in Er.
    destruct (TD_REALLOC_ok h (data v) (a1 * sizeof_T) n Hok)
      as [q' [h'' [Er' [_ [_ [_ [Hb Hcells]]]]]]].
    rewrite Er in Er'. injection Er' as <- <-.
    exists (mkVec q (size v) a1), h'. split; [exact E|].
    unfold is_size_t in *. split.
    + unfold vec_wf, is_size_t, block_bytes. cbn [data size alloc].
      destruct (Z.eqb_spec q NULL); [contradiction|]. rewrite Hb.
      repeat split; lia.
    + cbn [size alloc]. split; [reflexivity|]. split; [lia|].
      split; [|exact Hok'].
      apply td_vec_contents_ext; [reflexivity|]. cbn [data].
      intros i Hi. apply Hcells. split; [lia|].
      apply Z.lt_le_trans with (1 := proj2 Hi).
      apply Z.div_le_lower_bound; [exact sizeof_pos|].
      apply Z.min_glb.
      * apply Z.le_trans with (2 := Hblk). rewrite (Z.mul_comm sizeof_T).
        apply Z.mul_le_mono_nonneg_r; lia.
      * rewrite (Z.mul_comm sizeof_T).
        apply Z.mul_le_mono_nonneg_r; lia.
Qed.

Lemma td_vec_append_wf h v x (n : nat) :
  vec_wf sizeof_T h v -> fits sizeof_T TD_VECINITSZ (size v + 1) ->
  allocator_ok h (Datatypes.S n) ->
  exists v' h',
    td_vec_append sizeof_T TD_VECINITSZ (v, h) x = Done (v', h')
    /\ vec_wf sizeof_T h' v'
    /\ size v' = size v + 1
    /\ td_vec_contents h' v' = td_vec_contents h v ++ [x]
    /\ allocator_ok h' n.
Proof.
  intros Hwf Hfit Hok.
  assert (Hs : is_size_t (size v)) by apply Hwf.
  assert (E1 : size_t (size v + 1) = size v + 1).
  { apply size_t_id. destruct (fits_bytes _ 0 Hfit) as [_ B]; [lia..|].
    unfold is_size_t, SIZE_MOD in *. lia. }
  unfold td_vec_append. cbn [fst]. rewrite E1.
  destruct (td__vec_alloc_wf h v (size v + 1) n Hwf ltac:(lia) Hfit Hok)
    as [v1 [h1 [E [[_ [Ha1 [_ Hblk1]]] [Es1 [Hc1 [Ec1 Hok1]]]]]]].
  rewrite E. cbn [bind]. rewrite Es1, E1.
  eexists. eexists. split; [reflexivity|]. split.
  - unfold vec_wf, is_size_t in *. cbn [data size alloc].
    repeat split; try lia. exact Hblk1.
  - cbn [size]. split; [reflexivity|]. split; [|exact Hok1].
    rewrite <- Ec1.
    rewrite (td_vec_contents_store h1 (data v1) (size v) _ (alloc v1))
      by (unfold is_size_t in Hs; lia).
    rewrite <- Es1. destruct v1; reflexivity.
Qed.

Lemma td_vec_append_bulk_wf h v items (n : nat) :
  vec_wf sizeof_T h v ->
  fits sizeof_T TD_VECINITSZ (size v + Z.of_nat (List.length items)) ->
  allocator_ok h (Datatypes.S n) ->
  exists v' h',
    td_vec_append_bulk sizeof_T TD_VECINITSZ (v, h) items
      (Z.of_nat (List.length items)) = Done (v', h')
    /\ vec_wf sizeof_T h' v'
    /\ size v' = size v + Z.of_nat (List.length items)
    /\ td_vec_contents h' v' = td_vec_contents h v ++ items
    /\ allocator_ok h' n.
Proof.
  intros Hwf Hfit Hok. set (K := Z.of_nat (List.length items)) in *.
  assert (HK : 0 <= K) by (unfold K; lia).
  assert (Hs : is_size_t (size v)) by apply Hwf.
  assert (E1 : size_t (size v + K) = size v + K).
  { apply size_t_id. destruct (fits_bytes _ 0 Hfit) as [_ B]; [lia..|].
    unfold is_size_t, SIZE_MOD in *. lia. }
  unfold td_vec_append_bulk. cbn [fst]. rewrite E1.
  destruct (td__vec_alloc_wf h v (size v + K) n Hwf ltac:(lia) Hfit Hok)
    as [v1 [h1 [E [[_ [Ha1 [_ Hblk1]]] [Es1 [Hc1 [Ec1 Hok1]]]]]]].
  rewrite E. cbn [bind]. rewrite Es1, E1.
  eexists. eexists. split; [reflexivity|]. split.
  - unfold vec_wf, is_size_t in *. cbn [data size alloc].
    repeat split; try lia. exact Hblk1.
  - cbn [size]. split; [reflexivity|]. split; [|exact Hok1].
    rewrite <- Ec1.
    assert (EK : size_t (K * sizeof_T) = K * sizeof_T).
    { apply size_t_id. apply (fits_bytes _ K Hfit); [exact HK|].
      unfold is_size_t in Hs. lia. }
    rewrite EK. unfold K.
    rewrite (td_vec_contents_memcpy h1 (data v1) (size v) _ (alloc v1))
      by (unfold is_size_t in Hs; lia).
    rewrite <- Es1. destruct v1; reflexivity.
Qed.

Lemma td_vec_append_each_wf items :
  forall h v,
    vec_wf sizeof_T h v ->
    fits sizeof_T TD_VECINITSZ (size v + Z.of_nat (List.length items)) ->
    allocator_ok h (List.length items) ->
    exists v' h',
      td_vec_append_each sizeof_T TD_VECINITSZ (v, h) items = Done (v', h')
      /\ vec_wf sizeof_T h' v'
      /\ size v' = size v + Z.of_nat (List.length items)
      /\ td_vec_contents h' v' = td_vec_contents h v ++ items.
Proof.
  induction items as [|x items IH]; intros h v Hwf Hfit Hok.
  - exists v, h. cbn [td_vec_append_each List.length].
    split; [reflexivity|]. split; [exact Hwf|]. split; [cbn; lia|].
    rewrite app_nil_r. reflexivity.
  - cbn [List.length] in Hfit, Hok. rewrite Nat2Z.inj_succ in Hfit.
    destruct (td_vec_append_wf h v x (List.length items) Hwf)
      as [v1 [h1 [E1 [Hwf1 [Es1 [Ec1 Hok1]]]]]]; [|exact Hok|].
    { apply fits_le with (2 := Hfit). lia. }
    destruct (IH h1 v1 Hwf1) as [v' [h' [E [Hwf' [Es Ec]]]]];
      [rewrite Es1; apply fits_le with (2 := Hfit); lia | exact Hok1 |].
    exists v', h'. cbn [td_vec_append_each]. rewrite E1. cbn [bind].
    split; [exact E|]. split; [exact Hwf'|].
    split; [cbn [List.length]; rewrite Nat2Z.inj_succ; lia|].
    rewrite Ec, Ec1, <- app_assoc. reflexivity.
Qed.

(** C7: from a well-formed vector, [td_vec_append_bulk] of [K] items and [K]
    calls of [td_vec_append] on the same items both return, whatever blocks
    the allocator hands out to each, and end with the same [size] and the
    same elements [data[0..size)]: the old elements followed by the items. *)
Theorem td_vec_append_bulk_each h v items (rs1 rs2 : list ptr) :
  vec_wf sizeof_T h v ->
  fits sizeof_T TD_VECINITSZ (size v + Z.of_nat (List.length items)) ->
  allocator_ok (with_replies h rs1) (List.length items) ->
  allocator_ok (with_replies h rs2) 1 ->
  exists v1 h1 v2 h2,
    td_vec_append_each sizeof_T TD_VECINITSZ (v, with_replies h rs1) items
    = Done (v1, h1)
    /\ td_vec_append_bulk sizeof_T TD_VECINITSZ (v, with_replies h rs2) items
         (Z.of_nat (List.length items)) = Done (v2, h2)
    /\ size v2 = size v1
    /\ td_vec_contents h2 v2 = td_vec_contents h1 v1
    /\ size v1 = size v + Z.of_nat (List.length items)
    /\ td_vec_contents h1 v1 = td_vec_contents h v ++ items.
Proof.
  intros Hwf Hfit Hok1 Hok2.
  destruct (td_vec_append_each_wf items (with_replies h rs1) v
              (vec_wf_with_replies h v rs1 Hwf) Hfit Hok1)
    as [v1 [h1 [E1 [_ [Es1 Ec1]]]]].
  destruct (td_vec_append_bulk_wf (with_replies h rs2) v items 0
              (vec_wf_with_replies h v rs2 Hwf) Hfit Hok2)
    as [v2 [h2 [E2 [_ [Es2 [Ec2 _]]]]]].
  exists v1, h1, v2, h2. split; [exact E1|]. split; [exact E2|].
  split; [lia|]. split; [rewrite Ec1, Ec2; reflexivity|].
  split; [exact Es1 | exact Ec1].
Qed.

(** *** Truncation *)

Lemma td_vec_contents_firstn h v (s a : Z) :
  0 <= s <= size v ->
  firstn (Z.to_nat s) (td_vec_contents h v)
  = td_vec_contents h (mkVec (data v) s a).
Proof.
  intros Hs. destruct v as [d n c]. cbn [data size] in *.
  replace n with (s + (n - s)) at 1 by lia.
  rewrite (td_vec_contents_app h d s (n - s) c a 0) by lia.
  rewrite firstn_app, td_vec_contents_length. cbn [size].
  rewrite Nat.sub_diag, firstn_O, app_nil_r.
  apply firstn_all2. rewrite td_vec_contents_length. cbn [size]. lia.
Qed.

(** With room left, [td_vec_append] writes in place. *)
Lemma td_vec_append_in_place h v x :
  is_size_t (alloc v) -> 0 <= size v < alloc v ->
  td_vec_append sizeof_T TD_VECINITSZ (v, h) x
  = Done (mkVec (data v) (size v + 1) (alloc v),
          store h (data v + size v) x).
Proof.
  intros Ha Hs.
  assert (E1 : size_t (size v + 1) = size v + 1)
    by (apply size_t_id; unfold is_size_t in *; lia).
  unfold td_vec_append. cbn [fst]. rewrite E1.
  rewrite td__vec_alloc_keeps by lia. cbn [bind]. rewrite E1. reflexivity.
Qed.

Lemma td_vec_append_each_in_place items :
  forall h v,
    is_size_t (alloc v) -> 0 <= size v ->
    size v + Z.of_nat (List.length items) <= alloc v ->
    exists h',
      td_vec_append_each sizeof_T TD_VECINITSZ (v, h) items
      = Done (mkVec (data v) (size v + Z.of_nat (List.length items))
                (alloc v), h')
      /\ replies h' = replies h /\ blk_size h' = blk_size h
      /\ td_vec_contents h'
           (mkVec (data v) (size v + Z.of_nat (List.length items)) (alloc v))
         = td_vec_contents h v ++ items.
Proof.
  induction items as [|x items IH]; intros h v Ha Hs Hroom.
  - exists h. cbn [td_vec_append_each List.length Z.of_nat].
    rewrite Z.add_0_r, app_nil_r. destruct v; repeat split.
  - cbn [List.length] in Hroom |- *. rewrite Nat2Z.inj_succ in Hroom |- *.
    cbn [td_vec_append_each].
    rewrite td_vec_append_in_place by (try assumption; lia). cbn [bind].
    destruct (IH (store h (data v + size v) x)
                (mkVec (data v) (size v + 1) (alloc v)))
      as [h' [E [Er [Eb Ec]]]]; cbn [data size alloc]; try assumption;
      try lia.
    cbn [data size alloc] in E, Ec.
    replace (size v + Z.succ (Z.of_nat (List.length items)))
      with (size v + 1 + Z.of_nat (List.length items)) by lia.
    exists h'. split; [exact E|]. split; [exact Er|]. split; [exact Eb|].
    rewrite Ec.
    rewrite (td_vec_contents_store h (data v) (size v) _ (alloc v)) by lia.
    rewrite <- app_assoc. destruct v; reflexivity.
Qed.

(** C9: truncating by [m <= size] changes the [size] field alone, the
    elements below the new size being those of before; appending [m] items
    afterwards returns without a reallocation, with the untouched prefix
    followed by the new items in [data[0..size)]. *)
Theorem td_vec_truncate_append h v (m : Z) items :
  is_size_t (size v) -> is_size_t (alloc v) -> size v <= alloc v ->
  0 <= m <= size v -> Z.of_nat (List.length items) = m ->
  let v0 := td_vec_truncate v m in
  let kept := firstn (Z.to_nat (size v - m)) (td_vec_contents h v) in
  data v0 = data v /\ alloc v0 = alloc v /\ size v0 = size v - m
  /\ td_vec_contents h v0 = kept
  /\ exists v' h',
      td_vec_append_each sizeof_T TD_VECINITSZ (v0, h) items = Done (v', h')
      /\ data v' = data v /\ alloc v' = alloc v /\ size v' = size v
      /\ replies h' = replies h /\ blk_size h' = blk_size h
      /\ td_vec_contents h' v' = kept ++ items.
Proof.
  intros Hs Ha Hsa Hm Hlen. cbv zeta.
  assert (E0 : td_vec_truncate v m = mkVec (data v) (size v - m) (alloc v)).
  { unfold td_vec_truncate. rewrite size_t_id; [reflexivity|].
    unfold is_size_t in *. lia. }
  rewrite E0. cbn [data size alloc].
  rewrite (td_vec_contents_firstn h v (size v - m) (alloc v)) by lia.
  split; [reflexivity|]. split; [reflexivity|]. split; [reflexivity|].
  split; [reflexivity|].
  destruct (td_vec_append_each_in_place items h
              (mkVec (data v) (size v - m) (alloc v)))
    as [h' [E [Er [Eb Ec]]]]; cbn [data size alloc]; try assumption;
    try lia.
  cbn [data size alloc] in E, Ec. rewrite Hlen in E, Ec.
  replace (size v - m + m) with (size v) in E, Ec by lia.
  eexists. exists h'. split; [exact E|]. cbn [data size alloc].
  repeat split; try assumption.
Qed.

End VectorFacts.

(** ** Reading a file *)

Lemma i32_small (x : Z) : 0 <= x < 2 ^ 31 -> i32 x = x.
Proof. intros H. unfold i32. rewrite Z.mod_small; lia. Qed.

(** The three failures that [td_read_file_to_string] reports: a failed seek,
    a negative probed length, and a read that stops short. *)
Lemma td_read_file_to_string_failures (INIT : Z) (st : state ascii)
  (fp : FILE) :
  (f_seek_fails fp = true ->
   td_read_file_to_string INIT st fp = Done (false, st))
  /\ (f_seek_fails fp = false -> i32 (ftell fp) < 0 ->
      td_read_file_to_string INIT st fp = Done (false, st))
  /\ (forall str h,
         f_seek_fails fp = false -> 0 <= i32 (ftell fp) ->
         td__vec_alloc 1 INIT st (size_t (i32 (ftell fp))) = Done (str, h) ->
         fst (fread h (data str) (size_t (i32 (ftell fp))) fp)
         <> size_t (i32 (ftell fp)) ->
         exists st',
           td_read_file_to_string INIT st fp = Done (false, st')).
Proof.
  unfold td_read_file_to_string, fseek_end. split; [|split].
  - intros ->. reflexivity.
  - intros -> Hneg. cbn [Z.eqb negb].
    destruct (Z.ltb_spec (i32 (ftell fp)) 0); [reflexivity | lia].
  - intros str h -> Hpos Ealloc Hshort. cbn [Z.eqb negb].
    destruct (Z.ltb_spec (i32 (ftell fp)) 0); [lia|].
    rewrite Ealloc. cbn [bind].
    destruct (fread h (data str) (size_t (i32 (ftell fp))) fp)
      as [read h'] eqn:Er.
    cbn [fst] in Hshort.
    destruct (Z.eqb_spec read (size_t (i32 (ftell fp)))); [contradiction|].
    cbn [negb]. eexists. reflexivity.
Qed.

(** The path of a file whose length is probed as [L = f_len fp]. *)
Lemma td_read_file_to_string_probed (INIT : Z) (st : state ascii)
  (fp : FILE) :
  f_seek_fails fp = false -> f_tell_fails fp = false ->
  0 <= f_len fp < 2 ^ 31 ->
  td_read_file_to_string INIT st fp
  = bind (td__vec_alloc 1 INIT st (f_len fp))
      (fun '(str, h) =>
         let (read, h') := fread h (data str) (f_len fp) fp in
         if negb (read =? f_len fp) then Done (false, (str, h'))
         else Done (true, (mkVec (data str) read (alloc str), h'))).
Proof.
  intros Hseek Htell HL.
  unfold td_read_file_to_string, fseek_end, ftell. rewrite Hseek, Htell.
  cbn [Z.eqb negb]. rewrite i32_small by exact HL.
  destruct (Z.ltb_spec (f_len fp) 0); [lia|].
  rewrite size_t_id by (unfold is_size_t, SIZE_MOD; lia). reflexivity.
Qed.

(** C3, as stated, fails: the empty string reading a file of 5 bytes ends
    with room for 1024 bytes, not 5. *)
Lemma td_read_file_to_string_capacity_not_exact :
  let h := mkHeap (fun _ => zero) (fun _ => 0) [4096] in
  let fp := mkFile 5 (fun _ => "x"%char) false false 5 in
  exists str' h',
    td_read_file_to_string 1024 (td_vec_zero, h) fp = Done (true, (str', h'))
    /\ alloc str' = 1024 /\ alloc str' <> f_len fp.
Proof.
  cbv zeta. eexists. eexists. split; [vm_compute; reflexivity|].
  cbn [alloc f_len]. split; [reflexivity | discriminate].
Qed.

(** C3, amended: with the length probed as [L], [td_read_file_to_string]
    returns with a capacity of at least [L], reached the way [td__vec_alloc]
    reaches it: untouched and without a reallocation when it was [L] or more
    already, and otherwise by one reallocation to the first of [a], [2a],
    [4a], ... to reach [L], where [a] is the old capacity, or
    [TD_VECINITSZ] when that was [0]. *)
Theorem td_read_file_to_string_capacity (INIT : Z) (str : TD_String)
  (h : heap ascii) (fp : FILE) :
  0 < INIT < SIZE_MOD -> is_size_t (alloc str) ->
  f_seek_fails fp = false -> f_tell_fails fp = false ->
  0 <= f_len fp < 2 ^ 31 ->
  allocator_ok h 1 ->
  exists (b : bool) str' h',
    td_read_file_to_string INIT (str, h) fp = Done (b, (str', h'))
    /\ f_len fp <= alloc str'
    /\ (f_len fp <= alloc str ->
        alloc str' = alloc str /\ data str' = data str
        /\ replies h' = replies h)
    /\ (alloc str < f_len fp ->
        let a := if alloc str =? 0 then INIT else alloc str in
        (exists k : nat,
            alloc str' = a * 2 ^ Z.of_nat k
            /\ forall j : nat, (j < k)%nat -> a * 2 ^ Z.of_nat j < f_len fp)
        /\ replies h = data str' :: replies h').
Proof.
  intros Hinit Ha Hseek Htell HL Hok.
  rewrite td_read_file_to_string_probed by assumption.
  destruct (Z.le_gt_cases (f_len fp) (alloc str)) as [Hkeep|Hgrow].
  - rewrite td__vec_alloc_keeps by exact Hkeep. cbn [bind].
    destruct (fread h (data str) (f_len fp) fp) as [read h'] eqn:Er.
    assert (Eh : replies h' = replies h)
      by (unfold fread in Er; injection Er as _ <-; reflexivity).
    destruct (negb (read =? f_len fp)); eexists; eexists; eexists;
      (split; [reflexivity|]); cbn [alloc data];
      (split; [exact Hkeep|]); (split; [intros _; repeat split; exact Eh|]);
      intros C; lia.
  - assert (Hc : alloc str < f_len fp <= 2 ^ 63) by lia.
    destruct (td__vec_alloc_capacity INIT Hinit str (f_len fp) Ha Hc)
      as [k [a1 [E [Ea [H1 [_ _]]]]]].
    assert (Hstart : is_size_t (if alloc str =? 0 then size_t INIT
                                else alloc str))
      by (destruct (alloc str =? 0); [apply size_t_range | exact Ha]).
    destruct (td__vec_grow_some _ _ _ _ Hstart E) as [k' [_ [Ea' [_ Hmin]]]].
    rewrite (size_t_id INIT) in Ea', Hmin by (unfold is_size_t; lia).
    destruct (TD_REALLOC_ok 1 h (data str) (size_t (a1 * 1)) 0 Hok)
      as [q [h1 [Er [Hq [Hrep _]]]]].
    unfold td__vec_alloc.
    destruct (Z.gtb_spec (f_len fp) (alloc str)); [|lia].
    rewrite E, Er. destruct (Z.eqb_spec q NULL); [contradiction|].
    cbn [bind data alloc].
    destruct (fread h1 q (f_len fp) fp) as [read h'] eqn:Ef.
    assert (Eh : replies h' = replies h1)
      by (unfold fread in Ef; injection Ef as _ <-; reflexivity).
    assert (Hshape :
             exists k0 : nat,
               a1 = (if alloc str =? 0 then INIT else alloc str)
                    * 2 ^ Z.of_nat k0
               /\ forall j : nat,
                   (j < k0)%nat ->
                   (if alloc str =? 0 then INIT else alloc str)
                   * 2 ^ Z.of_nat j < f_len fp).
    { exists k. split; [exact Ea|]. intros j Hj.
      set (a := if alloc str =? 0 then INIT else alloc str) in *.
      assert (Ha0 : 0 < a)
        by (unfold a, is_size_t in *; destruct (Z.eqb_spec (alloc str) 0); lia).
      assert (Hmono : a * 2 ^ Z.of_nat j < a * 2 ^ Z.of_nat k).
      { apply Z.mul_lt_mono_pos_l; [exact Ha0|].
        apply Z.pow_lt_mono_r; lia. }
      assert (Hjr : is_size_t (a * 2 ^ Z.of_nat j)).
      { unfold is_size_t. split; [|lia].
        apply Z.mul_nonneg_nonneg; [lia|]. apply Z.pow_nonneg. lia. }
      destruct (Nat.lt_ge_cases j k') as [Hjk|Hjk].
      - specialize (Hmin j Hjk). rewrite size_t_id in Hmin by exact Hjr.
        exact Hmin.
      - exfalso.
        assert (Hk'le : (k' <= j)%nat) by exact Hjk.
        assert (a * 2 ^ Z.of_nat k' <= a * 2 ^ Z.of_nat j).
        { apply Z.mul_le_mono_nonneg_l; [lia|].
          apply Z.pow_le_mono_r; lia. }
        assert (Hk'r : is_size_t (a * 2 ^ Z.of_nat k')).
        { unfold is_size_t in *. split; [|lia].
          apply Z.mul_nonneg_nonneg; [lia|]. apply Z.pow_nonneg. lia. }
        rewrite size_t_id in Ea' by exact Hk'r. lia. }
    destruct (negb (read =? f_len fp)); eexists; eexists; eexists;
      (split; [reflexivity|]); cbn [alloc data];
      (split; [lia|]); (split; [intros C; lia|]);
      intros _; cbv zeta; (split; [exact Hshape|]);
      rewrite Eh; exact Hrep.
Qed.

(** A file shorter than [2^31] bytes that is read without an error ends up in
    the string, byte for byte. *)
Lemma td_read_file_to_string_roundtrip (INIT : Z) (str : TD_String)
  (h : heap ascii) (fp : FILE) :
  0 < INIT < SIZE_MOD -> is_size_t (alloc str) ->
  f_seek_fails fp = false -> f_tell_fails fp = false ->
  0 <= f_len fp < 2 ^ 31 -> f_len fp <= f_read_max fp ->
  allocator_ok h 1 ->
  exists str' h',
    td_read_file_to_string INIT (str, h) fp = Done (true, (str', h'))
    /\ size str' = f_len fp
    /\ td_vec_contents h' str' = file_bytes fp.
Proof.
  intros Hinit Ha Hseek Htell HL Hmax Hok.
  rewrite td_read_file_to_string_probed by assumption.
  assert (Halloc : exists str1 h1,
             td__vec_alloc 1 INIT (str, h) (f_len fp) = Done (str1, h1)).
  { destruct (Z.le_gt_cases (f_len fp) (alloc str)) as [Hkeep|Hgrow].
    - exists str, h. apply td__vec_alloc_keeps. exact Hkeep.
    - destruct (td__vec_alloc_grows 1 INIT Hinit h str (f_len fp) 0 Ha
                  ltac:(lia) Hok) as [k [q [h1 [E _]]]].
      eexists. eexists. exact E. }
  destruct Halloc as [str1 [h1 E]]. rewrite E. cbn [bind].
  unfold fread.
  replace (Z.max 0 (Z.min (f_len fp) (Z.min (f_len fp) (f_read_max fp))))
    with (f_len fp) by lia.
  rewrite Z.eqb_refl. cbn [negb].
  eexists. eexists. split; [reflexivity|]. cbn [size].
  split; [reflexivity|].
  unfold td_vec_contents, file_bytes. cbn [data size cells].
  apply map_ext_in. intros i Hi. apply in_seq in Hi.
  destruct (Z.leb_spec (data str1) (data str1 + Z.of_nat i)); [|lia].
  destruct (Z.ltb_spec (data str1 + Z.of_nat i) (data str1 + f_len fp));
    [|lia].
  cbn [andb]. f_equal. lia.
Qed.

(** C8: a file of [2^32 + 5] bytes, read without any error.  The probed
    length passes through an [i32] and comes out as [5]: the function reports
    success with [size = 5].  A file of [2^31] bytes, as healthy, is probed
    as a negative length and reported as a failure. *)
Theorem td_read_file_to_string_wraps_length :
  let h := mkHeap (fun _ => zero) (fun _ => 0) [4096] in
  let big := mkFile (2 ^ 32 + 5) (fun _ => "x"%char) false false (2 ^ 32 + 5) in
  let half := mkFile (2 ^ 31) (fun _ => "x"%char) false false (2 ^ 31) in
  (exists str' h',
      td_read_file_to_string 1024 (td_vec_zero, h) big
      = Done (true, (str', h'))
      /\ size str' = 5 /\ size str' <> f_len big
      /\ td_vec_contents h' str' = list_ascii_of_string "xxxxx")
  /\ td_read_file_to_string 1024 (td_vec_zero, h) half
     = Done (false, (td_vec_zero, h)).
Proof.
  cbv zeta. split.
  - eexists. eexists. split; [vm_compute; reflexivity|].
    cbn [size]. split; [reflexivity|]. split; [discriminate|].
    vm_compute. reflexivity.
  - reflexivity.
Qed.

(** ** The theorems at concrete vectors *)

(** Past [2^63] elements the doubling wraps around to [0] and the loop of
    [td__vec_alloc] never ends. *)
Lemma td_vec_append_beyond_range :
  let h := mkHeap (fun _ => zero) (fun _ => 0) [8192] in
  td_vec_append 1 1024 (mkVec 4096 (2 ^ 63) (2 ^ 63), h) "x"%char = Diverge.
Proof. reflexivity. Qed.


(** C2, as stated, fails: a full vector of 1024 elements asks for room for
    1025 and the allocator refuses.  [TD_PANIC] is reached with [alloc]
    already doubled and [data] already [NULL]. *)
Lemma td__vec_alloc_failure_changes_fields :
  let h := mkHeap (fun _ => zero)
             (fun p => if p =? 4096 then 1024 else 0) [] in
  let v := mkVec 4096 1024 1024 in
  td__vec_alloc 1 1024 (v, h) 1025
  = Panic "TD_REALLOC: out of memory" (mkVec NULL 1024 2048, h)
  /\ data (mkVec NULL 1024 2048) <> data v
  /\ alloc (mkVec NULL 1024 2048) <> alloc v.
Proof.
  cbv zeta. split; [reflexivity|]. cbn [data alloc]. unfold NULL.
  split; discriminate.
Qed.

Lemma td__vec_alloc_failure_witness :
  let h := mkHeap (fun _ => zero)
             (fun p => if p =? 4096 then 1024 else 0) [NULL; 8192] in
  let v := mkVec 4096 1024 1024 in
  exists (a1 : Z) h',
    td__vec_alloc 1 1024 (v, h) 1025
    = Panic "TD_REALLOC: out of memory" (mkVec NULL 1024 a1, h')
    /\ 1025 <= a1 /\ 1024 < a1
    /\ cells h' = cells h /\ blk_size h' = blk_size h.
Proof.
  cbv zeta.
  apply (td__vec_alloc_failure 1 1024 ltac:(in_range)
           (mkHeap (fun _ => zero)
              (fun p => if p =? 4096 then 1024 else 0) [NULL; 8192])
           (mkVec 4096 1024 1024) 1025).
  - in_range.
  - cbn. lia.
  - reflexivity.
Defined.

Lemma td_vec_append_capacity_witness :
  let h := mkHeap (fun _ => 0%nat) (fun _ => 0) [4096; 8192; 12288] in
  exists v' h',
    td_vec_append_each 4 1024 (td_vec_zero, h) [7; 8; 9]%nat = Done (v', h')
    /\ size v' = 3 /\ 3 <= alloc v'.
Proof.
  cbv zeta.
  destruct (td_vec_append_capacity 4 1024 ltac:(in_range) [7; 8; 9]%nat
              (mkHeap (fun _ => 0%nat) (fun _ => 0) [4096; 8192; 12288]))
    as [v' [h' [E [Es [_ [_ [Hle _]]]]]]].
  - cbn. lia.
  - unfold allocator_ok. cbn. split; [lia|].
    repeat (apply Forall_cons; [discriminate|]). apply Forall_nil.
  - exists v', h'. split; [exact E|]. split; [exact Es | exact Hle].
Defined.

Lemma td_vec_append_bulk_each_witness :
  let h := mkHeap (fun a => Z.to_nat a)
             (fun p => if p =? 4096 then 4096 else 0) [] in
  let v := mkVec 4096 1024 1024 in
  exists v1 h1 v2 h2,
    td_vec_append_each 4 1024 (v, with_replies h [8192; 12288]) [7; 8]%nat
    = Done (v1, h1)
    /\ td_vec_append_bulk 4 1024 (v, with_replies h [20480]) [7; 8]%nat 2
       = Done (v2, h2)
    /\ size v2 = size v1
    /\ td_vec_contents h2 v2 = td_vec_contents h1 v1.
Proof.
  cbv zeta.
  destruct (td_vec_append_bulk_each 4 1024 ltac:(lia) ltac:(in_range)
              (mkHeap (fun a => Z.to_nat a)
                 (fun p => if p =? 4096 then 4096 else 0) [])
              (mkVec 4096 1024 1024) [7; 8]%nat [8192; 12288] [20480])
    as [v1 [h1 [v2 [h2 [E1 [E2 [Es [Ec _]]]]]]]].
  - unfold vec_wf, block_bytes, is_size_t, SIZE_MOD. cbn. lia.
  - unfold fits, SIZE_MOD. cbn. lia.
  - unfold allocator_ok. cbn. split; [lia|].
    repeat (apply Forall_cons; [discriminate|]). apply Forall_nil.
  - unfold allocator_ok. cbn. split; [lia|].
    repeat (apply Forall_cons; [discriminate|]). apply Forall_nil.
  - exists v1, h1, v2, h2. split; [exact E1|]. split; [exact E2|].
    split; [exact Es | exact Ec].
Defined.

Lemma td_vec_truncate_append_witness :
  let h := mkHeap (fun a => Z.to_nat a)
             (fun p => if p =? 4096 then 4096 else 0) [] in
  let v := mkVec 4096 3 1024 in
  alloc (td_vec_truncate v 2) = 1024
  /\ exists v' h',
      td_vec_append_each 4 1024 (td_vec_truncate v 2, h) [7; 8]%nat
      = Done (v', h')
      /\ td_vec_contents h' v'
         = firstn 1 (td_vec_contents h v) ++ [7; 8]%nat.
Proof.
  cbv zeta.
  destruct (td_vec_truncate_append 4 1024
              (mkHeap (fun a => Z.to_nat a)
                 (fun p => if p =? 4096 then 4096 else 0) [])
              (mkVec 4096 3 1024) 2 [7; 8]%nat)
    as [_ [Ea [_ [_ [v' [h' [E [_ [_ [_ [_ [_ Ec]]]]]]]]]]]].
  - in_range.
  - in_range.
  - cbn. lia.
  - cbn. lia.
  - reflexivity.
  - split; [exact Ea|]. exists v', h'. split; [exact E | exact Ec].
Defined.

Lemma td_read_file_to_string_capacity_witness :
  let h := mkHeap (fun _ => zero) (fun _ => 0) [4096] in
  let fp := mkFile 5 (fun _ => "x"%char) false false 5 in
  exists (b : bool) str' h',
    td_read_file_to_string 1024 (td_vec_zero, h) fp = Done (b, (str', h'))
    /\ 5 <= alloc str'.
Proof.
  cbv zeta.
  destruct (td_read_file_to_string_capacity 1024 td_vec_zero
              (mkHeap (fun _ => zero) (fun _ => 0) [4096])
              (mkFile 5 (fun _ => "x"%char) false false 5))
    as [b [str' [h' [E [Hle _]]]]].
  - in_range.
  - in_range.
  - reflexivity.
  - reflexivity.
  - cbn. lia.
  - unfold allocator_ok. cbn. split; [lia|].
    apply Forall_cons; [discriminate | apply Forall_nil].
  - exists b, str', h'. split; [exact E | exact Hle].
Defined.

(** * Further properties *)

(** ** Views: equality *)

Lemma view_bytes_nth (m : memory) (v : TD_String_View) (j : nat) (c : ascii) :
  (j < Z.to_nat (sv_size v))%nat ->
  nth j (view_bytes m v) c = m (sv_data v + Z.of_nat j).
Proof.
  intros Hj. unfold view_bytes.
  rewrite (nth_indep _ c (m (sv_data v + Z.of_nat 0)))
    by (rewrite length_map, length_seq; exact Hj).
  rewrite (map_nth (fun i => m (sv_data v + Z.of_nat i))).
  rewrite seq_nth by exact Hj. reflexivity.
Qed.

(** The loop of [td_string_view_equal] answers [true] exactly when the two
    views agree from [i] on; the steps allowed are enough to get there. *)
Lemma td_equal_scan_spec (m : memory) (a b : TD_String_View) (fuel : nat)
  (i : Z) :
  is_size_t (sv_size a) -> 0 <= i <= sv_size a ->
  sv_size a <= i + Z.of_nat fuel ->
  td_equal_scan m a b fuel i = true
  <-> forall j, i <= j < sv_size a -> m (sv_data a + j) = m (sv_data b + j).
Proof.
  intros Ha. revert i. induction fuel as [|fuel IH]; intros i Hi Hf.
  - cbn [td_equal_scan]. split; [intros _ j Hj; lia | reflexivity].
  - cbn [td_equal_scan]. destruct (Z.ltb_spec i (sv_size a)) as [Hlt|Hge].
    + destruct (Ascii.eqb_spec (m (sv_data a + i)) (m (sv_data b + i)))
        as [E|NE]; cbn [negb].
      * rewrite size_t_id by (unfold is_size_t in *; lia).
        rewrite IH by lia. split.
        -- intros H j Hj. destruct (Z.eq_dec j i) as [->|Hne]; [exact E|].
           apply H. lia.
        -- intros H j Hj. apply H. lia.
      * split; [discriminate|]. intros H. exfalso. apply NE. apply H. lia.
    + split; [intros _ j Hj; lia | reflexivity].
Qed.

(** X12: [td_string_view_equal] decides equality of the bytes two views denote:
    it answers [true] exactly when the views have the same length and the
    same bytes, wherever they are stored. *)
Theorem td_string_view_equal_bytes (m : memory) (a b : TD_String_View) :
  is_size_t (sv_size a) -> is_size_t (sv_size b) ->
  td_string_view_equal m a b = true <-> view_bytes m a = view_bytes m b.
Proof.
  intros Ha Hb. unfold td_string_view_equal.
  destruct (Z.eqb_spec (sv_size a) (sv_size b)) as [Es|Ns]; cbn [negb].
  - rewrite td_equal_scan_spec by (unfold is_size_t in *; lia). split.
    + intros H. unfold view_bytes. rewrite <- Es. apply map_ext_in.
      intros i Hi. apply in_seq in Hi. apply H. lia.
    + intros H j Hj.
      pose proof (view_bytes_nth m a (Z.to_nat j) zero ltac:(lia)) as Na.
      pose proof (view_bytes_nth m b (Z.to_nat j) zero ltac:(lia)) as Nb.
      rewrite Z2Nat.id in Na, Nb by lia. rewrite <- Na, <- Nb, H.
      reflexivity.
  - split; [discriminate|]. intros H. exfalso. apply Ns.
    apply (f_equal (@List.length ascii)) in H.
    rewrite !view_bytes_length in H. unfold is_size_t in *. lia.
Qed.

Lemma td_string_view_equal_bytes_witness :
  let m := memory_of_string 4096 "ab-ab" in
  td_string_view_equal m (mkView 4096 2) (mkView 4099 2) = true.
Proof.
  cbv zeta.
  apply (td_string_view_equal_bytes (memory_of_string 4096 "ab-ab")
           (mkView 4096 2) (mkView 4099 2)).
  - in_range.
  - in_range.
  - reflexivity.
Defined.

(** ** Views: slicing *)

(** X14: with [start <= end <= size] the slice denotes the bytes of the view
    from index [start] up to, not including, index [end]. *)
Theorem td_string_view_slice_bytes (m : memory) (v : TD_String_View)
  (start end_ : Z) :
  is_size_t (sv_size v) -> 0 <= start <= end_ -> end_ <= sv_size v ->
  view_bytes m (td_string_view_slice v start end_)
  = firstn (Z.to_nat (end_ - start))
      (skipn (Z.to_nat start) (view_bytes m v)).
Proof.
  intros Hv Hs He. unfold td_string_view_slice.
  destruct (Z.gtb_spec start end_); [lia|].
  destruct (Z.gtb_spec end_ (sv_size v)); [lia|].
  rewrite size_t_id by (unfold is_size_t in *; lia).
  destruct v as [p n]. cbn [sv_data sv_size] in *.
  assert (En : view_bytes m (mkView p n)
               = view_bytes m
                   (mkView p (start + ((end_ - start) + (n - end_)))))
    by (do 2 f_equal; lia).
  rewrite En, view_bytes_split by lia.
  rewrite skipn_app, view_bytes_length. cbn [sv_size].
  rewrite Nat.sub_diag, skipn_all2
    by (rewrite view_bytes_length; cbn [sv_size]; lia).
  cbn [skipn app]. rewrite view_bytes_split by lia.
  rewrite firstn_app, view_bytes_length. cbn [sv_size].
  rewrite Nat.sub_diag, firstn_O, app_nil_r.
  symmetry. apply firstn_all2. rewrite view_bytes_length. cbn [sv_size]. lia.
Qed.

Lemma td_string_view_slice_bytes_witness :
  let m := memory_of_string 4096 "hello" in
  view_bytes m (td_string_view_slice (mkView 4096 5) 1 3)
  = firstn 2 (skipn 1 (view_bytes m (mkView 4096 5))).
Proof.
  cbv zeta.
  apply (td_string_view_slice_bytes (memory_of_string 4096 "hello")
           (mkView 4096 5) 1 3).
  - in_range.
  - lia.
  - cbn. lia.
Defined.

(** X15: a slice of a slice is a slice of the view, at the indices added up. *)
Theorem td_string_view_slice_slice (v : TD_String_View) (a b c d : Z) :
  is_size_t (sv_size v) -> 0 <= a <= b -> b <= sv_size v ->
  0 <= c <= d -> d <= b - a ->
  td_string_view_slice (td_string_view_slice v a b) c d
  = td_string_view_slice v (a + c) (a + d).
Proof.
  intros Hv Hab Hb Hcd Hd. unfold td_string_view_slice.
  destruct (Z.gtb_spec a b); [lia|].
  destruct (Z.gtb_spec b (sv_size v)); [lia|].
  cbn [sv_data sv_size].
  rewrite (size_t_id (b - a)) by (unfold is_size_t in *; lia).
  destruct (Z.gtb_spec c d); [lia|].
  destruct (Z.gtb_spec d (b - a)); [lia|].
  destruct (Z.gtb_spec (a + c) (a + d)); [lia|].
  destruct (Z.gtb_spec (a + d) (sv_size v)); [lia|].
  f_equal; [lia | f_equal; lia].
Qed.

Lemma td_string_view_slice_slice_witness :
  td_string_view_slice (td_string_view_slice (mkView 4096 10) 2 8) 1 4
  = td_string_view_slice (mkView 4096 10) 3 6.
Proof.
  apply (td_string_view_slice_slice (mkView 4096 10) 2 8 1 4).
  - in_range.
  - lia.
  - cbn. lia.
  - lia.
  - lia.
Defined.

Lemma td_string_view_slice_in_range_witness :
  sv_size (td_string_view_slice (mkView 4096 3) 2 10)
  = slice_size_law (mkView 4096 3) 2 10
  /\ view_within (td_string_view_slice (mkView 4096 3) 2 10) (mkView 4096 3).
Proof.
  apply (td_string_view_slice_in_range (mkView 4096 3) 2 10).
  - in_range.
  - in_range.
  - in_range.
  - cbn. lia.
Defined.

Lemma td_string_slice_within_witness :
  view_within (td_string_slice (mkVec 4096 3 1024) 5 10)
    (td_string_view_from_string (mkVec 4096 3 1024)).
Proof.
  apply (td_string_slice_within (mkVec 4096 3 1024) 5 10).
  - in_range.
  - in_range.
  - in_range.
Defined.

(** ** Views: chopping, continued *)

Lemma view_has_true (m : memory) (v : TD_String_View) (d : ascii) :
  view_has m v d = true
  <-> exists j, 0 <= j < sv_size v /\ m (sv_data v + j) = d.
Proof.
  unfold view_has. rewrite existsb_exists. split.
  - intros [c [Hin Ec]]. apply Ascii.eqb_eq in Ec. subst c.
    apply view_bytes_In. exact Hin.
  - intros H. exists d. split; [apply view_bytes_In; exact H|].
    apply Ascii.eqb_refl.
Qed.

(** X16: a chop loses nothing but the delimiter it consumed: the bytes of the
    view are the token, the delimiter when there was one, and the bytes of the
    view that is left. *)
Theorem td_string_view_chop_rebuild (m : memory) (v : TD_String_View)
  (d : ascii) :
  is_size_t (sv_size v) ->
  view_bytes m v
  = view_bytes m (fst (td_string_view_chop m v d))
    ++ (if view_has m v d then [d] else [])
    ++ view_bytes m (snd (td_string_view_chop m v d)).
Proof.
  intros Hv.
  destruct (td_string_view_chop_index m v d Hv)
    as [i [Hi [Hfree [[Hlt [Hd E]]|[Heq E]]]]]; rewrite E; cbn [fst snd].
  - assert (Hhas : view_has m v d = true)
      by (apply view_has_true; exists i; split; [lia | exact Hd]).
    rewrite Hhas. cbn [app]. rewrite <- Hd. apply view_bytes_cut. lia.
  - assert (Hhas : view_has m v d = false).
    { destruct (view_has m v d) eqn:Ex; [|reflexivity].
      apply view_has_true in Ex. destruct Ex as [j [Hj Ej]].
      exfalso. apply (Hfree j); [lia | exact Ej]. }
    rewrite Hhas. subst i. unfold view_bytes at 3.
    cbn [sv_size Z.to_nat seq map app]. rewrite app_nil_r.
    destruct v; reflexivity.
Qed.

Lemma td_string_view_chop_rebuild_witness :
  let m := memory_of_string 4096 "k=v" in
  view_bytes m (mkView 4096 3)
  = view_bytes m (fst (td_string_view_chop m (mkView 4096 3) "="))
    ++ (if view_has m (mkView 4096 3) "=" then ["="%char] else [])
    ++ view_bytes m (snd (td_string_view_chop m (mkView 4096 3) "=")).
Proof.
  cbv zeta.
  apply (td_string_view_chop_rebuild (memory_of_string 4096 "k=v")
           (mkView 4096 3) "="%char).
  in_range.
Defined.

Lemma td_string_view_chop_rest (m : memory) (v : TD_String_View) (d : ascii) :
  is_size_t (sv_size v) ->
  is_size_t (sv_size (snd (td_string_view_chop m v d)))
  /\ (sv_size (snd (td_string_view_chop m v d)) = 0
      \/ sv_size (snd (td_string_view_chop m v d)) < sv_size v)
  /\ ~ In d (view_bytes m (fst (td_string_view_chop m v d))).
Proof.
  intros Hv.
  destruct (td_string_view_chop_index m v d Hv)
    as [i [Hi [Hfree [[Hlt [Hd E]]|[Heq E]]]]]; rewrite E;
    cbn [fst snd sv_size]; unfold is_size_t in *.
  - split; [lia|]. split; [right; lia|]. apply view_prefix_free. exact Hfree.
  - split; [unfold SIZE_MOD; lia|]. split; [left; reflexivity|].
    apply view_prefix_free. exact Hfree.
Qed.

(** X17: chopping drains a view: after as many chops as the view has bytes
    (or more) the view is empty, and none of the tokens holds a delimiter. *)
Theorem td_chop_times_drains (m : memory) (d : ascii) (n : nat) :
  forall v : TD_String_View,
    is_size_t (sv_size v) -> sv_size v <= Z.of_nat n ->
    sv_size (snd (td_chop_times m v d n)) = 0
    /\ List.length (fst (td_chop_times m v d n)) = n
    /\ Forall (fun t => ~ In d (view_bytes m t)) (fst (td_chop_times m v d n)).
Proof.
  induction n as [|n IH]; intros v Hv Hn.
  - cbn [td_chop_times fst snd]. unfold is_size_t in Hv.
    split; [cbn in Hn; lia|]. split; [reflexivity | constructor].
  - cbn [td_chop_times].
    destruct (td_string_view_chop_rest m v d Hv) as [Hr [Hs Hfree]].
    destruct (td_string_view_chop m v d) as [out v'] eqn:Ec.
    cbn [fst snd] in Hr, Hs, Hfree.
    destruct (IH v' Hr) as [H1 [H2 H3]]; [lia|].
    destruct (td_chop_times m v' d n) as [outs v''].
    cbn [fst snd List.length] in *. split; [exact H1|].
    split; [rewrite H2; reflexivity|]. constructor; assumption.
Qed.

Lemma td_chop_times_drains_witness :
  let m := memory_of_string 4096 "a,b,c" in
  sv_size (snd (td_chop_times m (mkView 4096 5) "," 5)) = 0.
Proof.
  cbv zeta.
  apply (td_chop_times_drains (memory_of_string 4096 "a,b,c") ","%char 5
           (mkView 4096 5)).
  - in_range.
  - cbn. lia.
Defined.

(** ** Views: trimming *)

Lemma td_trim_left_scan_spec (m : memory) (v : TD_String_View) (fuel : nat)
  (i : Z) :
  is_size_t (sv_size v) -> 0 <= i <= sv_size v ->
  sv_size v <= i + Z.of_nat fuel ->
  let r := td_trim_left_scan m v fuel i in
  i <= r <= sv_size v
  /\ (forall j, i <= j < r -> isspace (m (sv_data v + j)) = true)
  /\ (r < sv_size v -> isspace (m (sv_data v + r)) = false).
Proof.
  intros Hv. revert i. induction fuel as [|fuel IH]; intros i Hi Hf; cbv zeta.
  - cbn [td_trim_left_scan]. split; [lia|]. split; intros; lia.
  - cbn [td_trim_left_scan]. destruct (Z.ltb_spec i (sv_size v)) as [Hlt|Hge].
    + destruct (isspace (m (sv_data v + i))) eqn:Esp; cbn [andb].
      * rewrite size_t_id by (unfold is_size_t in *; lia).
        destruct (IH (i + 1)) as [H1 [H2 H3]]; try lia.
        split; [lia|]. split; [|exact H3].
        intros j Hj. destruct (Z.eq_dec j i) as [->|Hne]; [exact Esp|].
        apply H2. lia.
      * split; [lia|]. split; [intros; lia | intros _; exact Esp].
    + cbn [andb]. split; [lia|]. split; intros; lia.
Qed.

Lemma td_trim_right_scan_spec (m : memory) (v : TD_String_View) (fuel : nat)
  (e : Z) :
  is_size_t (sv_size v) -> 0 <= e <= sv_size v -> e <= Z.of_nat fuel ->
  let r := td_trim_right_scan m v fuel e in
  0 <= r <= e
  /\ (forall j, r <= j < e -> isspace (m (sv_data v + j)) = true)
  /\ (0 < r -> isspace (m (sv_data v + (r - 1))) = false).
Proof.
  intros Hv. revert e. induction fuel as [|fuel IH]; intros e He Hf; cbv zeta.
  - cbn [td_trim_right_scan]. split; [lia|]. split; intros; lia.
  - cbn [td_trim_right_scan]. destruct (Z.gtb_spec e 0) as [Hpos|Hzero].
    + destruct (isspace (m (sv_data v + (e - 1)))) eqn:Esp; cbn [andb].
      * rewrite size_t_id by (unfold is_size_t in *; lia).
        destruct (IH (e - 1)) as [H1 [H2 H3]]; try lia.
        split; [lia|]. split; [|exact H3].
        intros j Hj. destruct (Z.eq_dec j (e - 1)) as [->|Hne]; [exact Esp|].
        apply H2. lia.
      * split; [lia|]. split; [intros; lia | intros _; exact Esp].
    + cbn [andb]. split; [lia|]. split; intros; lia.
Qed.

Lemma td_string_view_trim_left_index (m : memory) (v : TD_String_View) :
  is_size_t (sv_size v) ->
  exists i,
    0 <= i <= sv_size v
    /\ (forall j, 0 <= j < i -> isspace (m (sv_data v + j)) = true)
    /\ (i < sv_size v -> isspace (m (sv_data v + i)) = false)
    /\ td_string_view_trim_left m v = mkView (sv_data v + i) (sv_size v - i).
Proof.
  intros Hv.
  destruct (td_trim_left_scan_spec m v (Z.to_nat (sv_size v)) 0 Hv)
    as [H1 [H2 H3]]; [unfold is_size_t in Hv; lia.. |].
  exists (td_trim_left_scan m v (Z.to_nat (sv_size v)) 0).
  split; [exact H1|]. split; [exact H2|]. split; [exact H3|].
  unfold td_string_view_trim_left.
  rewrite size_t_id by (unfold is_size_t in *; lia). reflexivity.
Qed.

Lemma td_string_view_trim_right_index (m : memory) (v : TD_String_View) :
  is_size_t (sv_size v) ->
  exists e,
    0 <= e <= sv_size v
    /\ (forall j, e <= j < sv_size v -> isspace (m (sv_data v + j)) = true)
    /\ (0 < e -> isspace (m (sv_data v + (e - 1))) = false)
    /\ td_string_view_trim_right m v = mkView (sv_data v) e.
Proof.
  intros Hv.
  destruct (td_trim_right_scan_spec m v (Z.to_nat (sv_size v)) (sv_size v) Hv)
    as [H1 [H2 H3]]; [unfold is_size_t in Hv; lia.. |].
  exists (td_trim_right_scan m v (Z.to_nat (sv_size v)) (sv_size v)).
  split; [exact H1|]. split; [exact H2|]. split; [exact H3|]. reflexivity.
Qed.

Lemma view_bytes_all (m : memory) (p : ptr) (n : Z) (f : ascii -> bool) :
  (forall j, 0 <= j < n -> f (m (p + j)) = true) ->
  forallb f (view_bytes m (mkView p n)) = true.
Proof.
  intros H. apply forallb_forall. intros c Hin.
  apply view_bytes_In in Hin. destruct Hin as [j [Hj E]].
  cbn [sv_data sv_size] in *. rewrite <- E. apply H. exact Hj.
Qed.

Lemma view_bytes_head (m : memory) (p : ptr) (n : Z) (c : ascii)
  (rest : list ascii) :
  view_bytes m (mkView p n) = c :: rest -> 0 < n /\ c = m p.
Proof.
  intros E.
  assert (Hlen : List.length (view_bytes m (mkView p n))
                 = Datatypes.S (List.length rest))
    by (rewrite E; reflexivity).
  rewrite view_bytes_length in Hlen. cbn [sv_size] in Hlen.
  split; [lia|].
  pose proof (view_bytes_nth m (mkView p n) 0 c) as N.
  cbn [sv_data sv_size] in N. rewrite E in N. cbn [nth] in N.
  rewrite N by lia. f_equal. cbn. lia.
Qed.

Lemma view_bytes_last (m : memory) (p : ptr) (n : Z) (c : ascii)
  (init : list ascii) :
  view_bytes m (mkView p n) = init ++ [c] -> 0 < n /\ c = m (p + (n - 1)).
Proof.
  intros E.
  assert (Hlen : List.length (view_bytes m (mkView p n))
                 = Datatypes.S (List.length init))
    by (rewrite E, length_app; cbn; lia).
  rewrite view_bytes_length in Hlen. cbn [sv_size] in Hlen.
  split; [lia|].
  pose proof (view_bytes_nth m (mkView p n) (List.length init) c) as N.
  cbn [sv_data sv_size] in N. rewrite E, nth_middle in N.
  rewrite N by lia. f_equal. lia.
Qed.

(** X18: [td_string_view_trim_left] removes a run of whitespace from the front
    and nothing else: the view ends where it ended, and what is left does not
    start with whitespace. *)
Theorem td_string_view_trim_left_spaces (m : memory) (v : TD_String_View) :
  is_size_t (sv_size v) ->
  let r := td_string_view_trim_left m v in
  (exists pre, view_bytes m v = pre ++ view_bytes m r
               /\ forallb isspace pre = true)
  /\ (forall c rest, view_bytes m r = c :: rest -> isspace c = false)
  /\ sv_data r + sv_size r = sv_data v + sv_size v
  /\ 0 <= sv_size r <= sv_size v.
Proof.
  intros Hv. cbv zeta.
  destruct (td_string_view_trim_left_index m v Hv) as [i [Hi [Hsp [Hns E]]]].
  rewrite E. cbn [sv_data sv_size]. split; [|split; [|lia]].
  - exists (view_bytes m (mkView (sv_data v) i)). split.
    + destruct v as [p n]. cbn [sv_data sv_size] in *.
      rewrite <- view_bytes_split by lia. do 2 f_equal. lia.
    + apply view_bytes_all. exact Hsp.
  - intros c rest Ec. apply view_bytes_head in Ec. destruct Ec as [Hpos ->].
    apply Hns. lia.
Qed.

Lemma td_string_view_trim_left_spaces_witness :
  let m := memory_of_string 4096 "  hi  " in
  sv_data (td_string_view_trim_left m (mkView 4096 6))
  + sv_size (td_string_view_trim_left m (mkView 4096 6)) = 4096 + 6.
Proof.
  cbv zeta.
  apply (td_string_view_trim_left_spaces (memory_of_string 4096 "  hi  ")
           (mkView 4096 6)).
  in_range.
Defined.

(** X19: [td_string_view_trim_right] removes a run of whitespace from the back
    and nothing else: the view starts where it started, and what is left does
    not end with whitespace. *)
Theorem td_string_view_trim_right_spaces (m : memory) (v : TD_String_View) :
  is_size_t (sv_size v) ->
  let r := td_string_view_trim_right m v in
  (exists suf, view_bytes m v = view_bytes m r ++ suf
               /\ forallb isspace suf = true)
  /\ (forall c init, view_bytes m r = init ++ [c] -> isspace c = false)
  /\ sv_data r = sv_data v
  /\ 0 <= sv_size r <= sv_size v.
Proof.
  intros Hv. cbv zeta.
  destruct (td_string_view_trim_right_index m v Hv) as [e [He [Hsp [Hns E]]]].
  rewrite E. cbn [sv_data sv_size]. split; [|split; [|split; [reflexivity|lia]]].
  - exists (view_bytes m (mkView (sv_data v + e) (sv_size v - e))). split.
    + destruct v as [p n]. cbn [sv_data sv_size] in *.
      rewrite <- view_bytes_split by lia. do 2 f_equal. lia.
    + apply view_bytes_all. intros j Hj.
      replace (sv_data v + e + j) with (sv_data v + (e + j)) by lia.
      apply Hsp. lia.
  - intros c init Ec. apply view_bytes_last in Ec. destruct Ec as [Hpos ->].
    apply Hns. exact Hpos.
Qed.

Lemma td_string_view_trim_right_spaces_witness :
  let m := memory_of_string 4096 "  hi  " in
  sv_data (td_string_view_trim_right m (mkView 4096 6)) = 4096.
Proof.
  cbv zeta.
  apply (td_string_view_trim_right_spaces (memory_of_string 4096 "  hi  ")
           (mkView 4096 6)).
  in_range.
Defined.

(** The shape of a trimmed view: it lies inside the view, whitespace fills
    what was cut off on either side, and it is empty or has a byte other than
    whitespace at either end. *)
Lemma td_string_view_trim_index (m : memory) (v : TD_String_View) :
  is_size_t (sv_size v) ->
  exists i e,
    0 <= i /\ 0 <= e /\ i + e <= sv_size v
    /\ td_string_view_trim m v = mkView (sv_data v + i) e
    /\ (forall j, 0 <= j < i -> isspace (m (sv_data v + j)) = true)
    /\ (forall j, i + e <= j < sv_size v ->
                  isspace (m (sv_data v + j)) = true)
    /\ (0 < e -> isspace (m (sv_data v + i)) = false
                 /\ isspace (m (sv_data v + i + (e - 1))) = false).
Proof.
  intros Hv.
  destruct (td_string_view_trim_left_index m v Hv) as [i [Hi [Hsp [Hns El]]]].
  assert (Hl : is_size_t (sv_size (mkView (sv_data v + i) (sv_size v - i))))
    by (unfold is_size_t in *; cbn [sv_size]; lia).
  destruct (td_string_view_trim_right_index m _ Hl)
    as [e [He [Hspr [Hnsr Er]]]].
  cbn [sv_data sv_size] in *.
  exists i, e. split; [lia|]. split; [lia|]. split; [lia|].
  split; [unfold td_string_view_trim; rewrite El; exact Er|].
  split; [exact Hsp|]. split.
  - intros j Hj. replace (sv_data v + j) with (sv_data v + i + (j - i)) by lia.
    apply Hspr. lia.
  - intros Hpos. split; [apply Hns; lia | apply Hnsr; exact Hpos].
Qed.

(** X20: [td_string_view_trim] removes whitespace at both ends and nothing
    else: the bytes of the view are whitespace, then the trimmed view, then
    whitespace; the trimmed view neither starts nor ends with whitespace; and
    a view of whitespace only is trimmed to an empty view. *)
Theorem td_string_view_trim_spaces (m : memory) (v : TD_String_View) :
  is_size_t (sv_size v) ->
  let r := td_string_view_trim m v in
  (exists pre suf,
      view_bytes m v = pre ++ view_bytes m r ++ suf
      /\ forallb isspace pre = true /\ forallb isspace suf = true)
  /\ (forall c rest, view_bytes m r = c :: rest -> isspace c = false)
  /\ (forall c init, view_bytes m r = init ++ [c] -> isspace c = false)
  /\ (forallb isspace (view_bytes m v) = true -> sv_size r = 0).
Proof.
  intros Hv. cbv zeta.
  destruct (td_string_view_trim_index m v Hv)
    as [i [e [Hi [He [Hie [E [Hpre [Hsuf Hends]]]]]]]].
  rewrite E. cbn [sv_size].
  split; [|split; [|split]].
  - exists (view_bytes m (mkView (sv_data v) i)),
      (view_bytes m (mkView (sv_data v + i + e) (sv_size v - (i + e)))).
    split; [|split].
    + destruct v as [p n]. cbn [sv_data sv_size] in *.
      rewrite <- !view_bytes_split by lia. do 2 f_equal. lia.
    + apply view_bytes_all. exact Hpre.
    + apply view_bytes_all. intros j Hj.
      replace (sv_data v + i + e + j) with (sv_data v + (i + e + j)) by lia.
      apply Hsuf. lia.
  - intros c rest Ec. apply view_bytes_head in Ec. destruct Ec as [Hpos ->].
    apply Hends. exact Hpos.
  - intros c init Ec. apply view_bytes_last in Ec. destruct Ec as [Hpos ->].
    apply Hends. exact Hpos.
  - intros Hall. destruct (Z.eq_dec e 0) as [|Hne]; [assumption|].
    exfalso. destruct Hends as [Hfirst _]; [lia|].
    rewrite forallb_forall in Hall.
    rewrite Hall in Hfirst; [discriminate|].
    apply view_bytes_In. exists i. split; [lia | reflexivity].
Qed.

Lemma td_string_view_trim_spaces_witness :
  let m := memory_of_string 4096 "  hi  " in
  exists pre suf,
    view_bytes m (mkView 4096 6)
    = pre ++ view_bytes m (td_string_view_trim m (mkView 4096 6)) ++ suf
    /\ forallb isspace pre = true /\ forallb isspace suf = true.
Proof.
  cbv zeta.
  apply (td_string_view_trim_spaces (memory_of_string 4096 "  hi  ")
           (mkView 4096 6)).
  in_range.
Defined.

Lemma td_string_view_trim_left_fixed (m : memory) (v : TD_String_View) :
  is_size_t (sv_size v) ->
  sv_size v = 0 \/ isspace (m (sv_data v)) = false ->
  td_string_view_trim_left m v = v.
Proof.
  intros Hv H.
  destruct (td_string_view_trim_left_index m v Hv) as [i [Hi [Hsp [_ E]]]].
  assert (i = 0).
  { destruct (Z.eq_dec i 0) as [|Hne]; [assumption|]. exfalso.
    destruct H as [H|H]; [lia|].
    specialize (Hsp 0 ltac:(lia)). rewrite Z.add_0_r, H in Hsp.
    discriminate. }
  subst i. rewrite E, Z.add_0_r, Z.sub_0_r. destruct v; reflexivity.
Qed.

Lemma td_string_view_trim_right_fixed (m : memory) (v : TD_String_View) :
  is_size_t (sv_size v) ->
  sv_size v = 0 \/ isspace (m (sv_data v + (sv_size v - 1))) = false ->
  td_string_view_trim_right m v = v.
Proof.
  intros Hv H.
  destruct (td_string_view_trim_right_index m v Hv) as [e [He [Hsp [_ E]]]].
  assert (e = sv_size v).
  { destruct (Z.eq_dec e (sv_size v)) as [|Hne]; [assumption|]. exfalso.
    destruct H as [H|H]; [lia|].
    specialize (Hsp (sv_size v - 1) ltac:(lia)). rewrite H in Hsp.
    discriminate. }
  subst e. rewrite E. destruct v; reflexivity.
Qed.

(** X21: trimming twice is trimming once. *)
Theorem td_string_view_trim_idempotent (m : memory) (v : TD_String_View) :
  is_size_t (sv_size v) ->
  td_string_view_trim m (td_string_view_trim m v) = td_string_view_trim m v.
Proof.
  intros Hv.
  destruct (td_string_view_trim_index m v Hv)
    as [i [e [Hi [He [Hie [E [_ [_ Hends]]]]]]]].
  rewrite E. unfold td_string_view_trim.
  assert (Hr : is_size_t (sv_size (mkView (sv_data v + i) e)))
    by (unfold is_size_t in *; cbn [sv_size]; lia).
  rewrite td_string_view_trim_left_fixed; [| exact Hr |].
  - apply td_string_view_trim_right_fixed; [exact Hr|]. cbn [sv_data sv_size].
    destruct (Z.eq_dec e 0) as [|Hne]; [left; assumption|].
    right. apply Hends. lia.
  - cbn [sv_data sv_size].
    destruct (Z.eq_dec e 0) as [|Hne]; [left; assumption|].
    right. apply Hends. lia.
Qed.

Lemma td_string_view_trim_idempotent_witness :
  let m := memory_of_string 4096 "  hi  " in
  td_string_view_trim m (td_string_view_trim m (mkView 4096 6))
  = td_string_view_trim m (mkView 4096 6).
Proof.
  cbv zeta.
  apply (td_string_view_trim_idempotent (memory_of_string 4096 "  hi  ")
           (mkView 4096 6)).
  in_range.
Defined.

(** ** Vectors, continued *)

Section VectorMore.

Context {T : Type}.
Variable sizeof_T : Z.
Variable TD_VECINITSZ : Z.
Hypothesis sizeof_pos : 0 < sizeof_T.
Hypothesis init_range : 0 < TD_VECINITSZ < SIZE_MOD.

Implicit Types (h : heap T) (v : td_vec) (x : T) (items : list T).

Lemma td_vec_contents_nth h v (j : nat) (d : T) :
  (j < Z.to_nat (size v))%nat ->
  nth j (td_vec_contents h v) d = cells h (data v + Z.of_nat j).
Proof.
  intros Hj. unfold td_vec_contents.
  rewrite (nth_indep _ d (cells h (data v + Z.of_nat 0)))
    by (rewrite length_map, length_seq; exact Hj).
  rewrite (map_nth (fun i => cells h (data v + Z.of_nat i))).
  rewrite seq_nth by exact Hj. reflexivity.
Qed.

(** X1: [td__vec_alloc] on a well-formed vector returns with room for
    [capacity] elements; it never shrinks the capacity, keeps [size] and the
    elements [data[0..size)], keeps the vector well formed, and leaves vector
    and allocator alone when the room was there already. *)
Theorem td__vec_alloc_ensures h v (capacity : Z) :
  vec_wf sizeof_T h v -> size v <= capacity ->
  fits sizeof_T TD_VECINITSZ capacity ->
  allocator_ok h 1 ->
  exists v' h',
    td__vec_alloc sizeof_T TD_VECINITSZ (v, h) capacity = Done (v', h')
    /\ capacity <= alloc v' /\ alloc v <= alloc v'
    /\ size v' = size v
    /\ td_vec_contents h' v' = td_vec_contents h v
    /\ vec_wf sizeof_T h' v'
    /\ (capacity <= alloc v -> v' = v /\ replies h' = replies h).
Proof.
  intros Hwf Hsc Hfit Hok.
  destruct (td__vec_alloc_wf sizeof_T TD_VECINITSZ sizeof_pos init_range
              h v capacity 0 Hwf Hsc Hfit Hok)
    as [v' [h' [E [Hwf' [Es [Hc [Ec _]]]]]]].
  exists v', h'. split; [exact E|]. split; [exact Hc|].
  assert (Hkeep : capacity <= alloc v -> v' = v /\ replies h' = replies h).
  { intros Hle. rewrite td__vec_alloc_keeps in E by exact Hle.
    injection E as <- <-. split; reflexivity. }
  split.
  - destruct (Z.le_gt_cases capacity (alloc v)) as [Hle|Hgt]; [|lia].
    destruct (Hkeep Hle) as [-> _]. lia.
  - split; [exact Es|]. split; [exact Ec|]. split; [exact Hwf' | exact Hkeep].
Qed.

(** X2: [td_vec_append] on a well-formed vector returns with [size] one
    larger, the item readable at [data[size - 1]] and every element of before
    readable where it was in the vector. *)
Theorem td_vec_append_read_back h v x :
  vec_wf sizeof_T h v -> fits sizeof_T TD_VECINITSZ (size v + 1) ->
  allocator_ok h 1 ->
  exists v' h',
    td_vec_append sizeof_T TD_VECINITSZ (v, h) x = Done (v', h')
    /\ size v' = size v + 1
    /\ cells h' (data v' + (size v' - 1)) = x
    /\ (forall i, 0 <= i < size v ->
                  cells h' (data v' + i) = cells h (data v + i))
    /\ vec_wf sizeof_T h' v'.
Proof.
  intros Hwf Hfit Hok.
  assert (Hs : 0 <= size v) by (destruct Hwf as [[H _] _]; exact H).
  destruct (td_vec_append_wf sizeof_T TD_VECINITSZ sizeof_pos init_range
              h v x 0 Hwf Hfit Hok)
    as [v' [h' [E [Hwf' [Es [Ec _]]]]]].
  exists v', h'. split; [exact E|]. split; [exact Es|].
  assert (Hlen : List.length (td_vec_contents h v) = Z.to_nat (size v))
    by apply td_vec_contents_length.
  split; [|split; [|exact Hwf']].
  - pose proof (td_vec_contents_nth h' v' (Z.to_nat (size v)) x ltac:(lia))
      as N.
    rewrite Ec, <- Hlen, nth_middle, Hlen, Z2Nat.id in N by lia.
    rewrite Es. replace (size v + 1 - 1) with (size v) by lia.
    symmetry. exact N.
  - intros i Hi.
    pose proof (td_vec_contents_nth h' v' (Z.to_nat i) x ltac:(lia)) as N'.
    pose proof (td_vec_contents_nth h v (Z.to_nat i) x ltac:(lia)) as N.
    rewrite Ec, app_nth1, N in N' by lia.
    rewrite Z2Nat.id in N' by lia. symmetry. exact N'.
Qed.

(** X3: two bulk appends in a row leave the elements that one bulk append of
    the two arrays joined leaves. *)
Theorem td_vec_append_bulk_twice h v (xs ys : list T) :
  vec_wf sizeof_T h v ->
  fits sizeof_T TD_VECINITSZ
    (size v + Z.of_nat (List.length xs) + Z.of_nat (List.length ys)) ->
  allocator_ok h 2 ->
  exists v1 h1 v2 h2 v3 h3,
    td_vec_append_bulk sizeof_T TD_VECINITSZ (v, h) xs
      (Z.of_nat (List.length xs)) = Done (v1, h1)
    /\ td_vec_append_bulk sizeof_T TD_VECINITSZ (v1, h1) ys
         (Z.of_nat (List.length ys)) = Done (v2, h2)
    /\ td_vec_append_bulk sizeof_T TD_VECINITSZ (v, h) (xs ++ ys)
         (Z.of_nat (List.length (xs ++ ys))) = Done (v3, h3)
    /\ size v2 = size v3
    /\ td_vec_contents h2 v2 = td_vec_contents h3 v3
    /\ td_vec_contents h2 v2 = td_vec_contents h v ++ xs ++ ys.
Proof.
  intros Hwf Hfit Hok.
  destruct (td_vec_append_bulk_wf sizeof_T TD_VECINITSZ sizeof_pos init_range
              h v xs 1 Hwf)
    as [v1 [h1 [E1 [Hwf1 [Es1 [Ec1 Hok1]]]]]]; [|exact Hok|].
  { apply (fits_le sizeof_T TD_VECINITSZ sizeof_pos) with (2 := Hfit). lia. }
  destruct (td_vec_append_bulk_wf sizeof_T TD_VECINITSZ sizeof_pos init_range
              h1 v1 ys 0 Hwf1)
    as [v2 [h2 [E2 [_ [Es2 [Ec2 _]]]]]]; [|exact Hok1|].
  { rewrite Es1. exact Hfit. }
  destruct (td_vec_append_bulk_wf sizeof_T TD_VECINITSZ sizeof_pos init_range
              h v (xs ++ ys) 1 Hwf)
    as [v3 [h3 [E3 [_ [Es3 [Ec3 _]]]]]]; [|exact Hok|].
  { rewrite length_app, Nat2Z.inj_add, Z.add_assoc. exact Hfit. }
  exists v1, h1, v2, h2, v3, h3.
  split; [exact E1|]. split; [exact E2|]. split; [exact E3|].
  rewrite length_app, Nat2Z.inj_add in Es3.
  split; [lia|]. rewrite Ec2, Ec1, Ec3, <- app_assoc.
  split; reflexivity.
Qed.

(** *** How far the capacity runs ahead, and how often it is moved *)

Lemma td_vec_append_growth h v x (n : nat) :
  is_size_t (size v) -> is_size_t (alloc v) -> size v <= alloc v ->
  size v < 2 ^ 63 ->
  alloc v <= Z.max TD_VECINITSZ (2 * size v - 1) ->
  allocator_ok h (Datatypes.S n) ->
  exists v' h' (used : list ptr),
    td_vec_append sizeof_T TD_VECINITSZ (v, h) x = Done (v', h')
    /\ size v' = size v + 1
    /\ is_size_t (alloc v') /\ size v' <= alloc v'
    /\ alloc v' <= Z.max TD_VECINITSZ (2 * size v' - 1)
    /\ replies h = used ++ replies h'
    /\ capacity_weight TD_VECINITSZ (alloc v)
       * 2 ^ Z.of_nat (List.length used)
       <= capacity_weight TD_VECINITSZ (alloc v')
    /\ allocator_ok h' n.
Proof.
  intros Hs Ha Hsa Hb Hslack Hok.
  assert (E1 : size_t (size v + 1) = size v + 1)
    by (apply size_t_id; unfold is_size_t, SIZE_MOD in *; lia).
  unfold td_vec_append. cbn [fst]. rewrite E1.
  destruct (Z.le_gt_cases (size v + 1) (alloc v)) as [Hfit|Hgrow].
  - rewrite td__vec_alloc_keeps by exact Hfit. cbn [bind]. rewrite E1.
    eexists. eexists. exists []. split; [reflexivity|].
    cbn [size alloc store replies app List.length].
    split; [reflexivity|]. split; [exact Ha|]. split; [exact Hfit|].
    split; [lia|]. split; [reflexivity|].
    split; [change (2 ^ Z.of_nat 0) with 1; lia|].
    apply allocator_ok_less. exact Hok.
  - assert (Hc : alloc v < size v + 1 <= 2 ^ 63) by lia.
    destruct (td__vec_alloc_capacity TD_VECINITSZ init_range v (size v + 1)
                Ha Hc) as [k [a1 [Eg [Ea [H1 [H2 H3]]]]]].
    destruct (TD_REALLOC_ok sizeof_T h (data v) (size_t (a1 * sizeof_T)) n Hok)
      as [q [h1 [Er [Hq [Hrep [Hok1 _]]]]]].
    unfold td__vec_alloc.
    destruct (Z.gtb_spec (size v + 1) (alloc v)); [|lia].
    rewrite Eg, Er. destruct (Z.eqb_spec q NULL); [contradiction|].
    cbn [bind size alloc data]. rewrite E1.
    eexists. eexists. exists [q]. split; [reflexivity|].
    cbn [size alloc store replies app List.length].
    split; [reflexivity|]. split; [unfold is_size_t in *; lia|].
    split; [lia|]. split; [exact H3|]. split; [exact Hrep|].
    split; [|exact Hok1].
    change (2 ^ Z.of_nat 1) with 2. unfold capacity_weight.
    destruct (Z.eqb_spec a1 0) as [Hz|_]; [unfold is_size_t in *; lia|].
    destruct (Z.eqb_spec (alloc v) 0) as [Hz|Hnz].
    + assert (0 < 2 ^ Z.of_nat k) by (apply Z.pow_pos_nonneg; lia). nia.
    + destruct k as [|k].
      * change (2 ^ Z.of_nat 0) with 1 in Ea. lia.
      * rewrite Nat2Z.inj_succ, Z.pow_succ_r in Ea by lia.
        assert (0 < 2 ^ Z.of_nat k) by (apply Z.pow_pos_nonneg; lia).
        unfold is_size_t in *. nia.
Qed.

Lemma td_vec_append_each_growth items :
  forall h v,
    is_size_t (size v) -> is_size_t (alloc v) -> size v <= alloc v ->
    size v + Z.of_nat (List.length items) <= 2 ^ 63 ->
    alloc v <= Z.max TD_VECINITSZ (2 * size v - 1) ->
    allocator_ok h (List.length items) ->
    exists v' h' (used : list ptr),
      td_vec_append_each sizeof_T TD_VECINITSZ (v, h) items = Done (v', h')
      /\ size v' = size v + Z.of_nat (List.length items)
      /\ alloc v' <= Z.max TD_VECINITSZ (2 * size v' - 1)
      /\ replies h = used ++ replies h'
      /\ capacity_weight TD_VECINITSZ (alloc v)
         * 2 ^ Z.of_nat (List.length used)
         <= capacity_weight TD_VECINITSZ (alloc v').
Proof.
  induction items as [|x items IH]; intros h v Hs Ha Hsa Hb Hslack Hok.
  - exists v, h, []. cbn [td_vec_append_each List.length app].
    split; [reflexivity|]. split; [cbn; lia|]. split; [exact Hslack|].
    split; [reflexivity|]. change (2 ^ Z.of_nat 0) with 1. lia.
  - cbn [List.length] in Hb, Hok. rewrite Nat2Z.inj_succ in Hb.
    destruct (td_vec_append_growth h v x (List.length items))
      as [v1 [h1 [u1 [E1 [Es1 [Ha1 [Hsa1 [Hsl1 [Hr1 [Hw1 Hok1]]]]]]]]]];
      try assumption; [lia|].
    destruct (IH h1 v1) as [v' [h' [u [E [Es [Hsl [Hr Hw]]]]]]];
      try assumption.
    + rewrite Es1. unfold is_size_t, SIZE_MOD in *. lia.
    + lia.
    + exists v', h', (u1 ++ u). cbn [td_vec_append_each]. rewrite E1.
      cbn [bind List.length]. split; [exact E|].
      split; [rewrite Nat2Z.inj_succ; lia|]. split; [exact Hsl|].
      split; [rewrite Hr1, Hr, app_assoc; reflexivity|].
      rewrite length_app, Nat2Z.inj_add, Z.pow_add_r by lia.
      apply Z.le_trans with (2 := Hw). rewrite Z.mul_assoc.
      apply Z.mul_le_mono_nonneg_r; [apply Z.pow_nonneg; lia | exact Hw1].
Qed.

(** X4: after [N] appends to the all-zero vector the capacity is at least [N]
    and at most the larger of [TD_VECINITSZ] and [2N - 1]: the vector never
    holds twice the room it needs, the first allocation apart. *)
Theorem td_vec_append_slack items h :
  let N := Z.of_nat (List.length items) in
  N <= 2 ^ 63 ->
  allocator_ok h (List.length items) ->
  exists v' h',
    td_vec_append_each sizeof_T TD_VECINITSZ (td_vec_zero, h) items
    = Done (v', h')
    /\ N <= alloc v' <= Z.max TD_VECINITSZ (2 * N - 1).
Proof.
  intros N Hb Hok.
  destruct (td_vec_append_each_fields sizeof_T TD_VECINITSZ init_range
              items h td_vec_zero)
    as [v1 [h1 [E1 [Es1 [Hsa1 _]]]]];
    try assumption; try (cbn; in_range); [left; reflexivity|].
  destruct (td_vec_append_each_growth items h td_vec_zero)
    as [v' [h' [u [E [Es [Hsl _]]]]]];
    try assumption; try (cbn; in_range).
  rewrite E in E1. injection E1 as <- <-.
  exists v', h'. split; [exact E|]. cbn [td_vec_zero size] in Es.
  fold N in Es. rewrite Es in Hsl, Hsa1. lia.
Qed.

(** X5: the reallocations that [N] appends to the all-zero vector make are
    logarithmic in [N]: with [r] calls of [TD_REALLOC] answered,
    [TD_VECINITSZ * 2^r <= 2 * max(TD_VECINITSZ, 2N - 1)]. *)
Theorem td_vec_append_reallocs items h :
  let N := Z.of_nat (List.length items) in
  N <= 2 ^ 63 ->
  allocator_ok h (List.length items) ->
  exists v' h' (used : list ptr),
    td_vec_append_each sizeof_T TD_VECINITSZ (td_vec_zero, h) items
    = Done (v', h')
    /\ replies h = used ++ replies h'
    /\ TD_VECINITSZ * 2 ^ Z.of_nat (List.length used)
       <= 2 * Z.max TD_VECINITSZ (2 * N - 1).
Proof.
  intros N Hb Hok.
  destruct (td_vec_append_each_growth items h td_vec_zero)
    as [v' [h' [u [E [Es [Hsl [Hr Hw]]]]]]];
    try assumption; try (cbn; in_range).
  exists v', h', u. split; [exact E|]. split; [exact Hr|].
  cbn [td_vec_zero size alloc] in Es, Hw. fold N in Es. rewrite Es in Hsl.
  unfold capacity_weight in Hw. cbn [Z.eqb] in Hw.
  destruct (Z.eqb_spec (alloc v') 0); lia.
Qed.

(** *** Overflow of the doubling *)

Lemma td__vec_grow_spins (capacity : Z) (fuel : nat) :
  2 ^ 63 < capacity ->
  forall a,
    a = 0 \/ (exists e, 0 <= e <= 63 /\ a = 2 ^ e) ->
    td__vec_grow fuel a capacity = None.
Proof.
  intros Hc. induction fuel as [|fuel IH]; intros a Ha;
    assert (Hlt : a < capacity)
      by (destruct Ha as [->|[e [He ->]]];
          [lia | apply Z.le_lt_trans with (2 := Hc);
                 apply Z.pow_le_mono_r; lia]);
    cbn [td__vec_grow]; destruct (Z.gtb_spec capacity a); try lia.
  - reflexivity.
  - apply IH. destruct Ha as [->|[e [He ->]]]; [left; reflexivity|].
    destruct (Z.eq_dec e 63) as [->|Hne]; [left; reflexivity|].
    right. exists (e + 1). split; [lia|].
    rewrite Z.pow_add_r by lia. apply size_t_id.
    unfold is_size_t, SIZE_MOD. change (2 ^ 1) with 2.
    assert (2 ^ e <= 2 ^ 62) by (apply Z.pow_le_mono_r; lia).
    assert (0 < 2 ^ e) by (apply Z.pow_pos_nonneg; lia). lia.
Qed.

(** X6: with [TD_VECINITSZ] a power of two (as the default 1024 is) and a
    capacity that is zero or a power of two, a request for more than [2^63]
    elements makes [td__vec_alloc] double its way to [0] and spin there: it
    neither returns nor panics. *)
Theorem td__vec_alloc_overflow_spins h v (capacity i : Z) :
  0 <= i <= 63 -> TD_VECINITSZ = 2 ^ i ->
  alloc v = 0 \/ (exists e, 0 <= e <= 63 /\ alloc v = 2 ^ e) ->
  2 ^ 63 < capacity ->
  td__vec_alloc sizeof_T TD_VECINITSZ (v, h) capacity = Diverge.
Proof.
  intros Hi Ei Ha Hc. unfold td__vec_alloc.
  assert (Hlt : alloc v < capacity).
  { destruct Ha as [->|[e [He ->]]]; [lia|].
    apply Z.le_lt_trans with (2 := Hc). apply Z.pow_le_mono_r; lia. }
  destruct (Z.gtb_spec capacity (alloc v)); [|lia].
  rewrite td__vec_grow_spins; [reflexivity | exact Hc |].
  destruct (Z.eqb_spec (alloc v) 0) as [Hz|Hnz].
  - right. exists i. split; [exact Hi|]. rewrite size_t_id; [exact Ei|].
    unfold is_size_t. lia.
  - destruct Ha as [Hz|He]; [contradiction | right; exact He].
Qed.

End VectorMore.

(** ** C strings *)

Lemma strlen_from_spec (m : memory) (s : ptr) (limit : nat) :
  forall n0 n,
    strlen_from m s limit n0 = Some n
    <-> n0 <= n < n0 + Z.of_nat limit
        /\ m (s + n) = zero
        /\ forall j, n0 <= j < n -> m (s + j) <> zero.
Proof.
  induction limit as [|limit IH]; intros n0 n.
  - cbn [strlen_from]. split; [discriminate | intros [H _]; lia].
  - cbn [strlen_from].
    destruct (Ascii.eqb_spec (m (s + n0)) zero) as [Ez|Nz].
    + split.
      * intros E. injection E as <-. split; [lia|]. split; [exact Ez|].
        intros j Hj. lia.
      * intros [Hn [_ Hfree]]. destruct (Z.eq_dec n n0) as [->|Hne];
          [reflexivity|]. exfalso. apply (Hfree n0); [lia | exact Ez].
    + rewrite IH. split.
      * intros [Hn [Hz Hfree]]. split; [lia|]. split; [exact Hz|].
        intros j Hj. destruct (Z.eq_dec j n0) as [->|Hne]; [exact Nz|].
        apply Hfree. lia.
      * intros [Hn [Hz Hfree]].
        assert (n <> n0) by (intros ->; contradiction).
        split; [lia|]. split; [exact Hz|]. intros j Hj. apply Hfree. lia.
Qed.

(** X10: [td_string_view_from_cstr] returns the view that starts at the
    pointer and ends just before the first terminator: no byte of the view is
    the terminator and the byte after the view is. *)
Theorem td_string_view_from_cstr_spec (m : memory) (cstr : ptr) (limit : nat)
  (v : TD_String_View) :
  td_string_view_from_cstr m cstr limit = Some v
  <-> sv_data v = cstr
      /\ 0 <= sv_size v < Z.of_nat limit
      /\ m (cstr + sv_size v) = zero
      /\ ~ In zero (view_bytes m v).
Proof.
  unfold td_string_view_from_cstr, strlen. split.
  - destruct (strlen_from m cstr limit 0) as [n|] eqn:E; [|discriminate].
    intros Ev. injection Ev as <-. cbn [sv_data sv_size].
    apply strlen_from_spec in E. destruct E as [Hn [Hz Hfree]].
    split; [reflexivity|]. split; [lia|]. split; [exact Hz|].
    apply view_prefix_free. exact Hfree.
  - intros [Ed [Hn [Hz Hfree]]]. destruct v as [p n].
    cbn [sv_data sv_size] in *. subst p.
    assert (E : strlen_from m cstr limit 0 = Some n).
    { apply strlen_from_spec. split; [lia|]. split; [exact Hz|].
      intros j Hj Ej. apply Hfree. apply view_bytes_In. exists j.
      split; [exact Hj | exact Ej]. }
    rewrite E. reflexivity.
Qed.

Lemma view_bytes_memory_of_string (base : ptr) (s : string) :
  view_bytes (memory_of_string base s)
    (mkView base (Z.of_nat (List.length (list_ascii_of_string s))))
  = list_ascii_of_string s.
Proof.
  unfold view_bytes, memory_of_string. cbn [sv_data sv_size].
  rewrite Nat2Z.id.
  transitivity (map (fun i => nth i (list_ascii_of_string s) zero)
                  (seq 0 (List.length (list_ascii_of_string s)))).
  - apply map_ext. intros i. f_equal. lia.
  - apply (nth_seq_all (list_ascii_of_string s) (fun _ => zero)).
Qed.

(** X11: a text without a terminator inside, laid out in memory, is viewed by
    [td_string_view_from_cstr] as exactly its characters. *)
Theorem td_string_view_from_cstr_text (base : ptr) (s : string) (limit : nat) :
  ~ In zero (list_ascii_of_string s) ->
  (List.length (list_ascii_of_string s) < limit)%nat ->
  exists v,
    td_string_view_from_cstr (memory_of_string base s) base limit = Some v
    /\ view_bytes (memory_of_string base s) v = list_ascii_of_string s.
Proof.
  intros Hfree Hlim.
  exists (mkView base (Z.of_nat (List.length (list_ascii_of_string s)))).
  split; [|apply view_bytes_memory_of_string].
  unfold td_string_view_from_cstr, strlen.
  assert (E : strlen_from (memory_of_string base s) base limit 0
              = Some (Z.of_nat (List.length (list_ascii_of_string s)))).
  { apply strlen_from_spec. split; [lia|]. split.
    - unfold memory_of_string. apply nth_overflow. lia.
    - intros j Hj Ej. apply Hfree. unfold memory_of_string in Ej.
      rewrite <- Ej. apply nth_In. lia. }
  rewrite E. reflexivity.
Qed.

Lemma td_string_view_from_cstr_text_witness :
  exists v,
    td_string_view_from_cstr (memory_of_string 4096 "hello") 4096 16 = Some v
    /\ view_bytes (memory_of_string 4096 "hello") v
       = list_ascii_of_string "hello".
Proof.
  apply (td_string_view_from_cstr_text 4096 "hello" 16).
  - cbn. intros H. repeat (destruct H as [H|H]; [discriminate H|]). exact H.
  - cbn. lia.
Defined.

(** ** Strings *)

(** What [td__vec_alloc] leaves alone when it returns: everything, or
    everything outside the block the allocator has answered with. *)
Lemma td__vec_alloc_frame {T : Type} (sizeof_T INIT : Z) (h h1 : heap T)
  (v v1 : td_vec) (capacity : Z) :
  0 < sizeof_T -> 0 < INIT < SIZE_MOD ->
  is_size_t (alloc v) -> capacity <= 2 ^ 63 ->
  td__vec_alloc sizeof_T INIT (v, h) capacity = Done (v1, h1) ->
  (v1 = v /\ h1 = h)
  \/ (replies h = data v1 :: replies h1
      /\ alloc v1 <= Z.max INIT (2 * capacity - 1)
      /\ forall a, a < data v1 \/ data v1 + alloc v1 <= a ->
                   cells h1 a = cells h a).
Proof.
  intros Hsz Hinit Ha Hc E. unfold td__vec_alloc in E.
  destruct (Z.gtb_spec capacity (alloc v)) as [Hgt|Hle];
    [|injection E as <- <-; left; split; reflexivity].
  destruct (td__vec_alloc_capacity INIT Hinit v capacity Ha ltac:(lia))
    as [k [a1 [Eg [_ [H1 [_ H3]]]]]].
  rewrite Eg in E. unfold TD_REALLOC in E.
  destruct (replies h) as [|q rs]; [discriminate|].
  destruct (Z.eqb_spec q NULL) as [Hq|Hq]; [cbn in E; discriminate|].
  destruct (Z.eqb_spec q NULL); [contradiction|].
  injection E as <- <-. right. cbn [data alloc replies cells].
  split; [reflexivity|]. split; [exact H3|]. intros a Hout.
  assert (Hkept : Z.min (block_bytes h (data v)) (size_t (a1 * sizeof_T))
                  / sizeof_T <= a1).
  { apply Z.div_le_upper_bound; [exact Hsz|].
    apply Z.le_trans with (1 := Z.le_min_r _ _).
    rewrite (Z.mul_comm sizeof_T). unfold size_t.
    unfold is_size_t in Ha.
    apply Z.mod_le; [apply Z.mul_nonneg_nonneg; lia | unfold SIZE_MOD; lia]. }
  destruct (Z.leb_spec q a); [|reflexivity].
  destruct (Z.ltb_spec a
              (q + Z.min (block_bytes h (data v)) (size_t (a1 * sizeof_T))
                   / sizeof_T)); [lia | reflexivity].
Qed.

(** X8: [td_string_append_cstr] of a terminated text of [n] bytes, one that
    lies outside the string's block and outside every block the allocator may
    answer with, to a well-formed string returns with [size] raised by [n]
    and with the bytes of the text, the terminator excluded, after the bytes
    of before. *)
Theorem td_string_append_cstr_contents (INIT : Z) (str : TD_String)
  (h : heap ascii) (cstr : ptr) (limit : nat) (n : Z) :
  0 < INIT < SIZE_MOD -> vec_wf 1 h str ->
  0 <= n < Z.of_nat limit ->
  (forall j, 0 <= j < n -> cells h (cstr + j) <> zero) ->
  cells h (cstr + n) = zero ->
  fits 1 INIT (size str + n) ->
  allocator_ok h 1 ->
  text_outside cstr n (data str) (alloc str) ->
  (forall q, In q (replies h) ->
             text_outside cstr n q (Z.max INIT (2 * (size str + n)))) ->
  exists str' h',
    td_string_append_cstr INIT (str, h) cstr limit = Some (Done (str', h'))
    /\ size str' = size str + n
    /\ td_vec_contents h' str'
       = td_vec_contents h str ++ view_bytes (cells h) (mkView cstr n)
    /\ vec_wf 1 h' str'.
Proof.
  intros Hinit Hwf Hn Hfree Hz Hfit Hok _ Hnew.
  assert (E : strlen (cells h) cstr limit = Some n).
  { unfold strlen. apply strlen_from_spec. split; [lia|].
    split; [exact Hz | exact Hfree]. }
  assert (Hs : is_size_t (size str)) by apply Hwf.
  assert (Hb : 2 * (size str + n) <= 2 ^ 64 - 1)
    by (apply (fits_bytes 1 INIT ltac:(lia) Hinit _ 0 Hfit); lia).
  assert (E1 : size_t (size str + n) = size str + n)
    by (apply size_t_id; unfold is_size_t, SIZE_MOD in *; lia).
  destruct (td__vec_alloc_wf 1 INIT ltac:(lia) Hinit h str (size str + n) 0
              Hwf ltac:(lia) Hfit Hok)
    as [v1 [h1 [Ea [Hwf1 [Es1 [Hc1 [Ec1 _]]]]]]].
  assert (Hbytes : view_bytes (cells h1) (mkView cstr n)
                   = view_bytes (cells h) (mkView cstr n)).
  { destruct (td__vec_alloc_frame 1 INIT h h1 str v1 (size str + n)
                ltac:(lia) Hinit ltac:(apply Hwf) ltac:(lia) Ea)
      as [[_ ->]|[Hrep [Hroom Hframe]]]; [reflexivity|].
    unfold view_bytes. cbn [sv_data sv_size]. apply map_ext_in.
    intros i Hi. apply in_seq in Hi. apply Hframe.
    destruct (Hnew (data v1)) as [Hl|Hr];
      [rewrite Hrep; left; reflexivity | left; lia | right; lia]. }
  set (items := view_bytes (cells h) (mkView cstr n)) in *.
  assert (En : Z.of_nat (List.length items) = n).
  { unfold items. rewrite view_bytes_length. cbn [sv_size]. lia. }
  assert (Hfit' : fits 1 INIT (size str + Z.of_nat (List.length items)))
    by (rewrite En; exact Hfit).
  destruct (td_vec_append_bulk_wf 1 INIT ltac:(lia) Hinit h str items 0
              Hwf Hfit' Hok)
    as [str' [h' [Eb [Hwf' [Es [Ec _]]]]]].
  exists str', h'. split.
  - unfold td_string_append_cstr. cbn [fst snd]. rewrite E. f_equal.
    rewrite <- Eb. unfold td_vec_append_bulk. cbn [fst]. rewrite En, E1, Ea.
    match goal with
    | |- bind ?m _ = _ =>
        assert (Em : m = Done (v1, h1)) by exact Ea; rewrite Em
    end.
    cbn [bind]. fold items. rewrite Hbytes. reflexivity.
  - split; [lia|]. split; [exact Ec | exact Hwf'].
Qed.

Lemma td_string_append_cstr_contents_witness :
  let m := memory_of_string 8192 "hi" in
  let h := mkHeap m (fun _ => 0) [4096] in
  exists str' h',
    td_string_append_cstr 1024 (td_vec_zero, h) 8192 8 = Some (Done (str', h'))
    /\ size str' = 0 + 2
    /\ td_vec_contents h' str'
       = td_vec_contents h td_vec_zero ++ view_bytes m (mkView 8192 2)
    /\ vec_wf 1 h' str'.
Proof.
  cbv zeta.
  apply (td_string_append_cstr_contents 1024 td_vec_zero
           (mkHeap (memory_of_string 8192 "hi") (fun _ => 0) [4096]) 8192 8 2).
  - in_range.
  - unfold vec_wf, block_bytes, is_size_t, SIZE_MOD. cbn. lia.
  - cbn. lia.
  - intros j Hj. cbn [cells].
    assert (Hc : j = 0 \/ j = 1) by lia.
    destruct Hc as [->| ->]; vm_compute; discriminate.
  - reflexivity.
  - unfold fits, SIZE_MOD. cbn. lia.
  - unfold allocator_ok. cbn. split; [lia|].
    apply Forall_cons; [discriminate | apply Forall_nil].
  - unfold text_outside. cbn. lia.
  - intros q [<-|[]]. unfold text_outside. cbn. lia.
Defined.

Lemma allocator_ok_free {T : Type} (h : heap T) (p : ptr) (n : nat) :
  allocator_ok h n -> allocator_ok (TD_FREE h p) n.
Proof. unfold TD_FREE. destruct (p =? NULL); intros H; exact H. Qed.

(** X9: [td_string_clear] leaves the all-zero string with its block released
    and is safe to repeat; the string can be used again at once, and what is
    appended then is all it holds. *)
Theorem td_string_clear_reuse (INIT : Z) (st : state ascii)
  (items : list ascii) :
  0 < INIT < SIZE_MOD ->
  fits 1 INIT (Z.of_nat (List.length items)) ->
  allocator_ok (snd st) (List.length items) ->
  fst (td_string_clear st) = td_vec_zero
  /\ td_string_clear (td_string_clear st) = td_string_clear st
  /\ block_bytes (snd (td_string_clear st)) (data (fst st)) = 0
  /\ exists str' h',
      td_vec_append_each 1 INIT (td_string_clear st) items = Done (str', h')
      /\ size str' = Z.of_nat (List.length items)
      /\ td_vec_contents h' str' = items.
Proof.
  intros Hinit Hfit Hok. destruct st as [str h]. cbn [fst snd] in *.
  unfold td_string_clear. cbn [fst snd data].
  split; [reflexivity|]. split; [reflexivity|]. split.
  - unfold block_bytes, TD_FREE.
    destruct (Z.eqb_spec (data str) NULL) as [E|NE]; [reflexivity|].
    cbn [blk_size]. unfold upd. rewrite Z.eqb_refl. reflexivity.
  - destruct (td_vec_append_each_wf 1 INIT ltac:(lia) Hinit items
                (TD_FREE h (data str)) (mkVec NULL 0 0))
      as [str' [h' [E [_ [Es Ec]]]]].
    + unfold vec_wf, block_bytes, is_size_t, SIZE_MOD. cbn. lia.
    + exact Hfit.
    + apply allocator_ok_free. exact Hok.
    + exists str', h'. split; [exact E|]. split; [exact Es | exact Ec].
Qed.

Lemma td_string_clear_reuse_witness :
  let h := mkHeap (fun _ => "x"%char)
             (fun p => if p =? 4096 then 1024 else 0) [8192; 12288] in
  exists str' h',
    td_vec_append_each 1 1024 (td_string_clear (mkVec 4096 3 1024, h))
      (list_ascii_of_string "ok") = Done (str', h')
    /\ size str' = 2
    /\ td_vec_contents h' str' = list_ascii_of_string "ok".
Proof.
  cbv zeta.
  apply (td_string_clear_reuse 1024
           (mkVec 4096 3 1024,
            mkHeap (fun _ => "x"%char)
              (fun p => if p =? 4096 then 1024 else 0) [8192; 12288])
           (list_ascii_of_string "ok")).
  - in_range.
  - unfold fits, SIZE_MOD. cbn. lia.
  - unfold allocator_ok. cbn. split; [lia|].
    repeat (apply Forall_cons; [discriminate|]). apply Forall_nil.
Defined.

(** ** Reading a file, continued *)

(** X24: when [fseek] or [ftell] fails, [td_read_file_to_string] returns
    [false] with the string and the heap untouched and no allocation asked
    for. *)
Theorem td_read_file_to_string_probe_fails (INIT : Z) (st : state ascii)
  (fp : FILE) :
  f_seek_fails fp = true \/ f_tell_fails fp = true ->
  td_read_file_to_string INIT st fp = Done (false, st).
Proof.
  intros H. unfold td_read_file_to_string, fseek_end, ftell.
  destruct (f_seek_fails fp); [reflexivity|].
  destruct H as [H|H]; [discriminate|]. rewrite H. reflexivity.
Qed.

Lemma td_read_file_to_string_probe_fails_witness :
  let h := mkHeap (fun _ => zero) (fun _ => 0) [4096] in
  let fp := mkFile 5 (fun _ => "x"%char) false true 5 in
  td_read_file_to_string 1024 (td_vec_zero, h) fp
  = Done (false, (td_vec_zero, h)).
Proof.
  cbv zeta.
  apply (td_read_file_to_string_probe_fails 1024
           (td_vec_zero, mkHeap (fun _ => zero) (fun _ => 0) [4096])
           (mkFile 5 (fun _ => "x"%char) false true 5)).
  right. reflexivity.
Defined.

Lemma i32_large (x : Z) : 2 ^ 31 <= x < 2 ^ 32 -> i32 x = x - 2 ^ 32.
Proof.
  intros H. unfold i32.
  replace (x + 2 ^ 31) with (x - 2 ^ 31 + 1 * 2 ^ 32) by lia.
  rewrite Z_mod_plus_full, Z.mod_small by lia. lia.
Qed.

(** X25: a file of [2^31] bytes or more, below [2^32], is turned down:
    with no failure of [fseek], [ftell] or [fread], the length probed
    through the [i32] is negative and [td_read_file_to_string] returns
    [false] with the string untouched. *)
Theorem td_read_file_to_string_large_rejected (INIT : Z) (st : state ascii)
  (fp : FILE) :
  f_seek_fails fp = false -> f_tell_fails fp = false ->
  2 ^ 31 <= f_len fp < 2 ^ 32 ->
  td_read_file_to_string INIT st fp = Done (false, st).
Proof.
  intros Hseek Htell HL.
  unfold td_read_file_to_string, fseek_end, ftell. rewrite Hseek, Htell.
  cbn [Z.eqb negb]. rewrite i32_large by exact HL.
  destruct (Z.ltb_spec (f_len fp - 2 ^ 32) 0); [reflexivity | lia].
Qed.

Lemma td_read_file_to_string_large_rejected_witness :
  let h := mkHeap (fun _ => zero) (fun _ => 0) [4096] in
  let fp := mkFile (2 ^ 31 + 7) (fun _ => "x"%char) false false (2 ^ 31 + 7) in
  td_read_file_to_string 1024 (td_vec_zero, h) fp
  = Done (false, (td_vec_zero, h)).
Proof.
  cbv zeta.
  apply (td_read_file_to_string_large_rejected 1024
           (td_vec_zero, mkHeap (fun _ => zero) (fun _ => 0) [4096])
           (mkFile (2 ^ 31 + 7) (fun _ => "x"%char) false false (2 ^ 31 + 7))).
  - reflexivity.
  - reflexivity.
  - cbn. lia.
Defined.

(** X26: when [fread] delivers fewer bytes than the length probed,
    [td_read_file_to_string] returns [false]; the capacity has been raised
    to the length, but [size] is the one of before. *)
Theorem td_read_file_to_string_short_read (INIT : Z) (str : TD_String)
  (h : heap ascii) (fp : FILE) :
  0 < INIT < SIZE_MOD -> is_size_t (alloc str) ->
  f_seek_fails fp = false -> f_tell_fails fp = false ->
  0 <= f_len fp < 2 ^ 31 -> 0 <= f_read_max fp < f_len fp ->
  allocator_ok h 1 ->
  exists str' h',
    td_read_file_to_string INIT (str, h) fp = Done (false, (str', h'))
    /\ size str' = size str
    /\ f_len fp <= alloc str'.
Proof.
  intros Hinit Ha Hseek Htell HL Hmax Hok.
  rewrite td_read_file_to_string_probed by assumption.
  assert (Halloc : exists str1 h1,
             td__vec_alloc 1 INIT (str, h) (f_len fp) = Done (str1, h1)
             /\ size str1 = size str /\ f_len fp <= alloc str1).
  { destruct (Z.le_gt_cases (f_len fp) (alloc str)) as [Hkeep|Hgrow].
    - exists str, h. split; [apply td__vec_alloc_keeps; exact Hkeep|].
      split; [reflexivity | exact Hkeep].
    - destruct (td__vec_alloc_grows 1 INIT Hinit h str (f_len fp) 0 Ha
                  ltac:(lia) Hok) as [k [q [h1 [E [H1 _]]]]].
      cbv zeta in E, H1. eexists. eexists. split; [exact E|].
      cbn [size alloc]. split; [reflexivity | lia]. }
  destruct Halloc as [str1 [h1 [E [Es Hc]]]]. rewrite E. cbn [bind].
  unfold fread.
  replace (Z.max 0 (Z.min (f_len fp) (Z.min (f_len fp) (f_read_max fp))))
    with (f_read_max fp) by lia.
  destruct (Z.eqb_spec (f_read_max fp) (f_len fp)); [lia|]. cbn [negb].
  eexists. eexists. split; [reflexivity|]. split; [exact Es | exact Hc].
Qed.

Lemma td_read_file_to_string_short_read_witness :
  let h := mkHeap (fun _ => zero) (fun _ => 0) [4096] in
  let fp := mkFile 5 (fun _ => "x"%char) false false 3 in
  exists str' h',
    td_read_file_to_string 1024 (td_vec_zero, h) fp
    = Done (false, (str', h'))
    /\ size str' = 0 /\ 5 <= alloc str'.
Proof.
  cbv zeta.
  apply (td_read_file_to_string_short_read 1024 td_vec_zero
           (mkHeap (fun _ => zero) (fun _ => 0) [4096])
           (mkFile 5 (fun _ => "x"%char) false false 3)).
  - in_range.
  - in_range.
  - reflexivity.
  - reflexivity.
  - cbn. lia.
  - cbn. lia.
  - unfold allocator_ok. cbn. split; [lia|].
    apply Forall_cons; [discriminate | apply Forall_nil].
Defined.

Lemma td_read_file_to_string_roundtrip_witness :
  let h := mkHeap (fun _ => zero) (fun _ => 0) [4096] in
  let fp := mkFile 5 (fun _ => "x"%char) false false 5 in
  exists str' h',
    td_read_file_to_string 1024 (td_vec_zero, h) fp = Done (true, (str', h'))
    /\ size str' = 5
    /\ td_vec_contents h' str' = file_bytes fp.
Proof.
  cbv zeta.
  apply (td_read_file_to_string_roundtrip 1024 td_vec_zero
           (mkHeap (fun _ => zero) (fun _ => 0) [4096])
           (mkFile 5 (fun _ => "x"%char) false false 5)).
  - in_range.
  - in_range.
  - reflexivity.
  - reflexivity.
  - cbn. lia.
  - cbn. lia.
  - unfold allocator_ok. cbn. split; [lia|].
    apply Forall_cons; [discriminate | apply Forall_nil].
Defined.

(** ** The further vector theorems at concrete vectors *)

Lemma td__vec_alloc_ensures_witness :
  let h := mkHeap (fun a => Z.to_nat a)
             (fun p => if p =? 4096 then 4096 else 0) [8192] in
  let v := mkVec 4096 1024 1024 in
  exists v' h',
    td__vec_alloc 4 1024 (v, h) 1500 = Done (v', h')
    /\ 1500 <= alloc v'
    /\ td_vec_contents h' v' = td_vec_contents h v.
Proof.
  cbv zeta.
  destruct (td__vec_alloc_ensures 4 1024 ltac:(lia) ltac:(in_range)
              (mkHeap (fun a => Z.to_nat a)
                 (fun p => if p =? 4096 then 4096 else 0) [8192])
              (mkVec 4096 1024 1024) 1500)
    as [v' [h' [E [Hc [_ [_ [Ec _]]]]]]].
  - unfold vec_wf, block_bytes, is_size_t, SIZE_MOD. cbn. lia.
  - cbn. lia.
  - unfold fits, SIZE_MOD. cbn. lia.
  - unfold allocator_ok. cbn. split; [lia|].
    apply Forall_cons; [discriminate | apply Forall_nil].
  - exists v', h'. split; [exact E|]. split; [exact Hc | exact Ec].
Defined.

Lemma td_vec_append_read_back_witness :
  let h := mkHeap (fun a => Z.to_nat a)
             (fun p => if p =? 4096 then 4096 else 0) [8192] in
  let v := mkVec 4096 1024 1024 in
  exists v' h',
    td_vec_append 4 1024 (v, h) 7%nat = Done (v', h')
    /\ cells h' (data v' + (size v' - 1)) = 7%nat.
Proof.
  cbv zeta.
  destruct (td_vec_append_read_back 4 1024 ltac:(lia) ltac:(in_range)
              (mkHeap (fun a => Z.to_nat a)
                 (fun p => if p =? 4096 then 4096 else 0) [8192])
              (mkVec 4096 1024 1024) 7%nat)
    as [v' [h' [E [_ [Ex _]]]]].
  - unfold vec_wf, block_bytes, is_size_t, SIZE_MOD. cbn. lia.
  - unfold fits, SIZE_MOD. cbn. lia.
  - unfold allocator_ok. cbn. split; [lia|].
    apply Forall_cons; [discriminate | apply Forall_nil].
  - exists v', h'. split; [exact E | exact Ex].
Defined.

Lemma td_vec_append_bulk_twice_witness :
  let h := mkHeap (fun a => Z.to_nat a)
             (fun p => if p =? 4096 then 4096 else 0) [8192; 12288] in
  let v := mkVec 4096 1023 1024 in
  exists v1 h1 v2 h2 v3 h3,
    td_vec_append_bulk 4 1024 (v, h) [1; 2]%nat 2 = Done (v1, h1)
    /\ td_vec_append_bulk 4 1024 (v1, h1) [3]%nat 1 = Done (v2, h2)
    /\ td_vec_append_bulk 4 1024 (v, h) [1; 2; 3]%nat 3 = Done (v3, h3)
    /\ size v2 = size v3
    /\ td_vec_contents h2 v2 = td_vec_contents h3 v3
    /\ td_vec_contents h2 v2 = td_vec_contents h v ++ [1; 2]%nat ++ [3]%nat.
Proof.
  cbv zeta.
  apply (td_vec_append_bulk_twice 4 1024 ltac:(lia) ltac:(in_range)
           (mkHeap (fun a => Z.to_nat a)
              (fun p => if p =? 4096 then 4096 else 0) [8192; 12288])
           (mkVec 4096 1023 1024) [1; 2]%nat [3]%nat).
  - unfold vec_wf, block_bytes, is_size_t, SIZE_MOD. cbn. lia.
  - unfold fits, SIZE_MOD. cbn. lia.
  - unfold allocator_ok. cbn. split; [lia|].
    repeat (apply Forall_cons; [discriminate|]). apply Forall_nil.
Defined.

Lemma td_vec_append_slack_witness :
  let h := mkHeap (fun _ => 0%nat) (fun _ => 0) [4096; 8192; 12288] in
  exists v' h',
    td_vec_append_each 4 1024 (td_vec_zero, h) [7; 8; 9]%nat = Done (v', h')
    /\ 3 <= alloc v' <= 1024.
Proof.
  cbv zeta.
  apply (td_vec_append_slack 4 1024 ltac:(in_range) [7; 8; 9]%nat
           (mkHeap (fun _ => 0%nat) (fun _ => 0) [4096; 8192; 12288])).
  - cbn. lia.
  - unfold allocator_ok. cbn. split; [lia|].
    repeat (apply Forall_cons; [discriminate|]). apply Forall_nil.
Defined.

Lemma td_vec_append_reallocs_witness :
  let h := mkHeap (fun _ => 0%nat) (fun _ => 0) [4096; 8192; 12288] in
  exists v' h' (used : list ptr),
    td_vec_append_each 4 2 (td_vec_zero, h) [7; 8; 9]%nat = Done (v', h')
    /\ replies h = used ++ replies h'
    /\ 2 * 2 ^ Z.of_nat (List.length used) <= 2 * Z.max 2 (2 * 3 - 1).
Proof.
  cbv zeta.
  apply (td_vec_append_reallocs 4 2 ltac:(in_range) [7; 8; 9]%nat
           (mkHeap (fun _ => 0%nat) (fun _ => 0) [4096; 8192; 12288])).
  - cbn. lia.
  - unfold allocator_ok. cbn. split; [lia|].
    repeat (apply Forall_cons; [discriminate|]). apply Forall_nil.
Defined.

Lemma td__vec_alloc_overflow_spins_witness :
  let h := mkHeap (fun _ => zero) (fun _ => 0) [8192] in
  td__vec_alloc 1 1024 (mkVec 4096 (2 ^ 63) (2 ^ 63), h) (2 ^ 63 + 1)
  = Diverge.
Proof.
  cbv zeta.
  apply (td__vec_alloc_overflow_spins 1 1024 ltac:(in_range)
           (mkHeap (fun _ => zero) (fun _ => 0) [8192])
           (mkVec 4096 (2 ^ 63) (2 ^ 63)) (2 ^ 63 + 1) 10).
  - lia.
  - reflexivity.
  - right. exists 63. split; [lia | reflexivity].
  - lia.
Defined.

(** ** Views left behind by a reallocation *)

(** X7: an append to a full vector that the allocator answers with a new
    block moves the vector there and releases the old block: a pointer kept
    into the old [data], such as a view taken before the append, is left
    dangling. *)
Theorem td_vec_append_moves_block {T : Type} (sizeof_T INIT : Z)
  (h : heap T) (v : td_vec) (x : T) (q : ptr) (rs : list ptr) :
  0 < INIT < SIZE_MOD -> is_size_t (alloc v) ->
  size v = alloc v -> size v < 2 ^ 63 ->
  replies h = q :: rs -> q <> NULL -> q <> data v ->
  exists v' h',
    td_vec_append sizeof_T INIT (v, h) x = Done (v', h')
    /\ data v' = q
    /\ sv_data (td_string_view_from_string v) <> data v'
    /\ blk_size h' (data v) = 0.
Proof.
  intros Hinit Ha Hfull Hb Hrep Hq Hmove.
  assert (E1 : size_t (size v + 1) = size v + 1)
    by (apply size_t_id; unfold is_size_t, SIZE_MOD in *; lia).
  assert (Hc : alloc v < size v + 1 <= 2 ^ 63) by lia.
  destruct (td__vec_alloc_capacity INIT Hinit v (size v + 1) Ha Hc)
    as [k [a1 [Eg _]]].
  unfold td_vec_append, td__vec_alloc. cbn [fst]. rewrite E1.
  destruct (Z.gtb_spec (size v + 1) (alloc v)); [|lia].
  rewrite Eg.
  assert (Er : exists h1,
             TD_REALLOC sizeof_T h (data v) (size_t (a1 * sizeof_T)) = (q, h1)
             /\ blk_size h1
                = upd (upd (blk_size h) (data v) 0) q
                    (size_t (a1 * sizeof_T))).
  { unfold TD_REALLOC. rewrite Hrep.
    destruct (Z.eqb_spec q NULL); [contradiction|].
    eexists. split; reflexivity. }
  destruct Er as [h1 [Er Eb]]. rewrite Er.
  destruct (Z.eqb_spec q NULL); [contradiction|].
  cbn [bind data size alloc]. eexists. eexists. split; [reflexivity|].
  cbn [store blk_size]. rewrite Eb.
  cbn [data store blk_size td_string_view_from_string sv_data].
  split; [reflexivity|]. split; [intros C; apply Hmove; symmetry; exact C|].
  unfold upd. destruct (Z.eqb_spec (data v) q) as [C|_];
    [exfalso; apply Hmove; symmetry; exact C|].
  rewrite Z.eqb_refl. reflexivity.
Qed.

Lemma td_vec_append_moves_block_witness :
  let h := mkHeap (fun _ => zero)
             (fun p => if p =? 4096 then 1024 else 0) [8192] in
  exists v' h',
    td_vec_append 1 1024 (mkVec 4096 1024 1024, h) "x"%char = Done (v', h')
    /\ data v' = 8192
    /\ sv_data (td_string_view_from_string (mkVec 4096 1024 1024)) <> data v'
    /\ blk_size h' 4096 = 0.
Proof.
  cbv zeta.
  apply (td_vec_append_moves_block 1 1024
           (mkHeap (fun _ => zero)
              (fun p => if p =? 4096 then 1024 else 0) [8192])
           (mkVec 4096 1024 1024) "x"%char 8192 []).
  - in_range.
  - in_range.
  - reflexivity.
  - cbn. lia.
  - reflexivity.
  - discriminate.
  - discriminate.
Defined.
